(** * SQLite adapters of the SQL Pub/Sub: statements and row decoding

    A shallow embedding of [pkg/sql/offsets_adapter_sqlite.go] and
    [pkg/sql/schema_adapter_sqlite.go].  Both adapters are pure builders: they
    compose the text of a SQL statement together with its positional
    arguments, and decode one scanned row into a message.  Go strings are byte
    sequences, modelled as [string] (an [ascii] is one byte); [[]byte] is a
    list of bytes that may be nil; a Go map is a [gmap] that may be nil; an
    [int] or [int64] is a [Z] (the adapters do no arithmetic on them).

    The file has the embedding of the two source files, then the models of
    what they call (the Go library) and of what reads their results (a reader
    of statement texts, a store), then the proofs. *)

From Stdlib Require Import ZArith Ascii String DecimalString DecimalZ Lia.
From stdpp Require Import gmap strings list sorting.

Local Open Scope Z_scope.

(** The statements are built by concatenation onto literals: let [simpl] and
    [cbn] push a literal prefix through [+:+]. *)
Local Arguments String.append !_ _ /.

(** ** Errors *)

(** Go's [error] values as far as the adapters see them: an error of a
    collaborator (the driver, the JSON library), or one wrapped with a message
    by [errors.Wrap] and [errors.Wrapf]. *)
Inductive error : Type :=
| errors_New (text : string)
| json_SyntaxError
| json_UnmarshalTypeError (value : string)
| errors_Wrap (cause : error) (message : string).

(** ** Data of the package *)

(** A value passed as [any]: the adapters bind only [int64] offsets and
    strings. *)
Inductive any : Type :=
| any_int64 (n : Z)
| any_string (s : string).

(** Modelled from the spec: the declaration of [Query] is in a file of the
    package other than the two adapters.  It is a statement with its bound
    arguments, "the composed statement and its bound arguments"; the adapters
    fill its two fields in this order, [Query] and [Args].  A nil argument
    slice is the empty list. *)
Record Query : Type := mkQuery { Query_Query : string; Query_Args : list any }.

(** The zero value [Query{}]. *)
Definition Query_zero : Query := mkQuery "" [].

(** A byte slice: [None] is nil. *)
Definition bytes : Type := option (list ascii).

(** The conversion [string(b)]. *)
Definition string_of_bytes (b : bytes) : string :=
  match b with
  | None => ""
  | Some l => string_of_list_ascii l
  end.

(** The conversion [[]byte(s)]. *)
Definition bytes_of_string (s : string) : bytes := Some (list_ascii_of_string s).

(** [message.Metadata], a [map[string]string]: [None] is the nil map. *)
Definition Metadata : Type := option (gmap string string).

(** [message.Message] of the watermill library, the fields a publisher and a
    handler see. *)
Record Message : Type := mkMessage {
  Message_UUID : string;
  Message_Metadata : Metadata;
  Message_Payload : bytes
}.

(** [message.NewMessage(uuid, payload)] starts with an empty, non-nil
    metadata map. *)
Definition NewMessage (uuid : string) (payload : bytes) : Message :=
  mkMessage uuid (Some ∅) payload.

(** Modelled from the spec: the declaration of [Row] is in a file of the
    package other than the two adapters.  It is one fetched row; the fields
    are those the adapters read and write: the four scanned columns, and the
    decoded message [Msg], a pointer that is nil in the zero value. *)
Record Row : Type := mkRow {
  Row_Offset : Z;
  Row_UUID : bytes;
  Row_Payload : bytes;
  Row_Metadata : bytes;
  Row_Msg : option Message
}.

(** The zero value [Row{}]. *)
Definition Row_zero : Row := mkRow 0 None None None None.

(** Modelled from the spec: the interface [OffsetsAdapter] is declared in a
    file of the package other than the two adapters.  This is the one method
    of it that the messages schema calls, the "bound subquery, obtained from
    the offset tracker". *)
Class OffsetsAdapter (A : Type) : Type := {
  NextOffsetQuery : A -> string -> string -> Query
}.

(** Modelled from the spec: the interface [Scanner] is declared in a file
    of the package other than the two adapters.  It is the capability to
    "decode fixed-arity fields from the next result row".  [UnmarshalMessage]
    scans exactly four destinations (offset, uuid, payload, metadata), so a
    scan either yields these four values or fails. *)
Class Scanner (S : Type) : Type := {
  Scan : S -> (Z * bytes * bytes * bytes) + error
}.

(** A row as the driver hands it over ([*sql.Row], [*sql.Rows]): its four
    columns, a NULL column being a nil slice, or the error that reading it
    met. *)
Inductive sql_Row : Type :=
| sql_Row_columns (offset : Z) (uuid payload metadata : bytes)
| sql_Row_error (err : error).

#[export] Instance sql_Row_Scanner : Scanner sql_Row :=
  {| Scan := fun row =>
       match row with
       | sql_Row_columns offset uuid payload metadata =>
           inl (offset, uuid, payload, metadata)
       | sql_Row_error err => inr err
       end |}.

(** [sql.LevelSerializable]. *)
Definition LevelSerializable : Z := 6.

(** ** The Go library functions the adapters call *)

Module strings.

(** [strings.Repeat(s, count)] for a non-negative count. *)
Fixpoint Repeat (s : string) (count : nat) : string :=
  match count with
  | O => ""
  | S n => s +:+ Repeat s n
  end.

Fixpoint contains_byte (cutset : string) (c : ascii) : bool :=
  match cutset with
  | "" => false
  | String d rest => if Ascii.eqb c d then true else contains_byte rest c
  end.

(** [strings.TrimRight(s, cutset)]: [s] without its trailing bytes that
    occur in [cutset]. *)
Fixpoint TrimRight (s cutset : string) : string :=
  match s with
  | "" => ""
  | String c rest =>
      match TrimRight rest cutset with
      | "" => if contains_byte cutset c then "" else String c ""
      | kept => String c kept
      end
  end.

(** [strings.Join(elems, sep)]. *)
Fixpoint Join (elems : list string) (sep : string) : string :=
  match elems with
  | [] => ""
  | [e] => e
  | e :: rest => e +:+ sep +:+ Join rest sep
  end.

End strings.

Module fmt.

(** [fmt.Sprintf("%d", n)]: the decimal digits of [n], with a leading minus
    sign when it is negative. *)
Definition Sprintf_d (n : Z) : string := NilZero.string_of_int (Z.to_int n).

End fmt.

(** ** The Go library: [unicode/utf8] *)

Module utf8.

Definition RuneError : Z := 0xFFFD.
Definition MaxRune : Z := 0x10FFFF.

(** The value of a byte, and the byte of a value (truncated as [byte(x)]
    does). *)
Definition byte (c : ascii) : Z := Z.of_N (N_of_ascii c).
Definition to_byte (x : Z) : ascii := ascii_of_N (Z.to_N (x mod 256)).

Definition between (lo hi : Z) (c : ascii) : bool :=
  (lo <=? byte c) && (byte c <=? hi).

(** [utf8.DecodeRune(p)]: the first rune of [p] and its width in bytes;
    [(RuneError, 1)] when [p] does not start with a valid encoding (too
    short, a stray continuation byte, an overlong form, a surrogate, a value
    above [MaxRune]) and [(RuneError, 0)] when [p] is empty. *)
Definition DecodeRune (p : list ascii) : Z * nat :=
  match p with
  | [] => (RuneError, 0%nat)
  | b0 :: rest =>
      let x0 := byte b0 in
      if x0 <? 0x80 then (x0, 1%nat)
      else if x0 <? 0xC2 then (RuneError, 1%nat)
      else if x0 <? 0xE0 then
        match rest with
        | b1 :: _ =>
            if between 0x80 0xBF b1
            then (Z.lor (Z.shiftl (Z.land x0 0x1F) 6) (Z.land (byte b1) 0x3F), 2%nat)
            else (RuneError, 1%nat)
        | _ => (RuneError, 1%nat)
        end
      else if x0 <? 0xF0 then
        let lo := if x0 =? 0xE0 then 0xA0 else 0x80 in
        let hi := if x0 =? 0xED then 0x9F else 0xBF in
        match rest with
        | b1 :: b2 :: _ =>
            if between lo hi b1 && between 0x80 0xBF b2
            then (Z.lor (Z.lor (Z.shiftl (Z.land x0 0x0F) 12)
                               (Z.shiftl (Z.land (byte b1) 0x3F) 6))
                        (Z.land (byte b2) 0x3F), 3%nat)
            else (RuneError, 1%nat)
        | _ => (RuneError, 1%nat)
        end
      else if x0 <? 0xF5 then
        let lo := if x0 =? 0xF0 then 0x90 else 0x80 in
        let hi := if x0 =? 0xF4 then 0x8F else 0xBF in
        match rest with
        | b1 :: b2 :: b3 :: _ =>
            if between lo hi b1 && between 0x80 0xBF b2 && between 0x80 0xBF b3
            then (Z.lor (Z.lor (Z.lor (Z.shiftl (Z.land x0 0x07) 18)
                                      (Z.shiftl (Z.land (byte b1) 0x3F) 12))
                               (Z.shiftl (Z.land (byte b2) 0x3F) 6))
                        (Z.land (byte b3) 0x3F), 4%nat)
            else (RuneError, 1%nat)
        | _ => (RuneError, 1%nat)
        end
      else (RuneError, 1%nat)
  end.

(** [utf8.EncodeRune]: the bytes written for the rune [r]; a surrogate or
    a value out of range is written as [RuneError]. *)
Definition EncodeRune (r : Z) : list ascii :=
  let three (r : Z) :=
    [ to_byte (Z.lor 0xE0 (Z.shiftr r 12));
      to_byte (Z.lor 0x80 (Z.land (Z.shiftr r 6) 0x3F));
      to_byte (Z.lor 0x80 (Z.land r 0x3F)) ] in
  if (0 <=? r) && (r <=? 0x7F) then [to_byte r]
  else if (0 <=? r) && (r <=? 0x7FF) then
    [ to_byte (Z.lor 0xC0 (Z.shiftr r 6));
      to_byte (Z.lor 0x80 (Z.land r 0x3F)) ]
  else if (r <? 0) || (MaxRune <? r) || (0xD800 <=? r) && (r <=? 0xDFFF)
  then three RuneError
  else if r <=? 0xFFFF then three r
  else
    [ to_byte (Z.lor 0xF0 (Z.shiftr r 18));
      to_byte (Z.lor 0x80 (Z.land (Z.shiftr r 12) 0x3F));
      to_byte (Z.lor 0x80 (Z.land (Z.shiftr r 6) 0x3F));
      to_byte (Z.lor 0x80 (Z.land r 0x3F)) ].

(** [utf8.Valid(p)], scanning from a position inside a rune when [skip]
    bytes of it are still ahead. *)
Fixpoint Valid_from (skip : nat) (p : list ascii) : bool :=
  match p with
  | [] => true
  | b :: rest =>
      match skip with
      | S k => Valid_from k rest
      | O =>
          if byte b <? 0x80 then Valid_from 0 rest
          else
            let '(_, size) := DecodeRune p in
            if (size =? 1)%nat then false else Valid_from (size - 1) rest
      end
  end.

Definition Valid (p : list ascii) : bool := Valid_from 0 p.

Definition ValidString (s : string) : bool := Valid (list_ascii_of_string s).

End utf8.

(** ** The Go library: [encoding/json] on a [map[string]string]

    [json.Marshal] writes a nil map as [null] and any other map as an object
    whose keys are sorted; a string is written between quotes with its bytes
    escaped as [appendString] does with HTML escaping on (Go 1.22 and later,
    where a backspace and a form feed have short escapes): a byte that is not
    valid UTF-8 is written as the escape of the replacement rune U+FFFD.
    [json.Unmarshal] first checks that the whole text is valid JSON and then
    stores the members of an object into the map. *)

Module json.

Import utf8.

Definition quote : ascii := "034".
Definition backslash : ascii := "092".

Definition hex : list ascii := list_ascii_of_string "0123456789abcdef".

Definition hex_digit (x : Z) : ascii := nth (Z.to_nat x) hex "0"%char.

(** [htmlSafeSet]: the ASCII bytes that are written as they are. *)
Definition htmlSafe (b : ascii) : bool :=
  (0x20 <=? byte b) && (byte b <? 0x80) &&
  negb (Ascii.eqb b quote || Ascii.eqb b backslash ||
        Ascii.eqb b "<" || Ascii.eqb b ">" || Ascii.eqb b "&").

(** The escape of an ASCII byte outside [htmlSafeSet]. *)
Definition escape (b : ascii) : list ascii :=
  if Ascii.eqb b backslash || Ascii.eqb b quote then [backslash; b]
  else if Ascii.eqb b "008" then [backslash; "b"%char]
  else if Ascii.eqb b "012" then [backslash; "f"%char]
  else if Ascii.eqb b "010" then [backslash; "n"%char]
  else if Ascii.eqb b "013" then [backslash; "r"%char]
  else if Ascii.eqb b "009" then [backslash; "t"%char]
  else [backslash; "u"%char; "0"%char; "0"%char;
        hex_digit (Z.shiftr (byte b) 4); hex_digit (Z.land (byte b) 0xF)].

(** The loop of [appendString] over [src]; [copy] bytes of a rune that was
    found valid are still to be copied. *)
Fixpoint appendString_from (copy : nat) (src : list ascii) : list ascii :=
  match src with
  | [] => []
  | b :: rest =>
      match copy with
      | S k => b :: appendString_from k rest
      | O =>
          if byte b <? 0x80 then
            (if htmlSafe b then [b] else escape b) ++ appendString_from 0 rest
          else
            let '(c, size) := DecodeRune src in
            if (c =? RuneError) && (size =? 1)%nat then
              [backslash; "u"; "f"; "f"; "f"; "d"]%char ++ appendString_from 0 rest
            else if (c =? 0x2028) || (c =? 0x2029) then
              [backslash; "u"; "2"; "0"; "2"; hex_digit (Z.land c 0xF)]%char ++
              match rest with
              | _ :: _ :: rest' => appendString_from 0 rest'
              | _ => []
              end
            else b :: appendString_from (size - 1) rest
      end
  end.

Definition appendString (src : string) : list ascii :=
  [quote] ++ appendString_from 0 (list_ascii_of_string src) ++ [quote].

(** The members of a map in the order [Marshal] writes them: sorted by
    key. *)
Definition sorted_members (m : gmap string string) : list (string * string) :=
  merge_sort (fun x y => String.le x.1 y.1) (map_to_list m).

Fixpoint join (sep : list ascii) (parts : list (list ascii)) : list ascii :=
  match parts with
  | [] => []
  | [p] => p
  | p :: rest => p ++ sep ++ join sep rest
  end.

Definition member (kv : string * string) : list ascii :=
  appendString kv.1 ++ [":"%char] ++ appendString kv.2.

(** [json.Marshal(metadata)]; it cannot fail on a [map[string]string]. *)
Definition Marshal (v : Metadata) : list ascii + error :=
  match v with
  | None => inl (list_ascii_of_string "null")
  | Some m =>
      inl (["{"%char] ++ join [","%char] (member <$> sorted_members m) ++ ["}"%char])
  end.

(** *** The scanner *)

Definition isSpace (c : ascii) : bool :=
  match c with
  | " "%char | "009"%char | "013"%char | "010"%char => true
  | _ => false
  end.

Fixpoint skipSpace (s : list ascii) : list ascii :=
  match s with
  | c :: rest => if isSpace c then skipSpace rest else s
  | [] => []
  end.

Definition is_digit (c : ascii) : bool := between 48 57 c.

Definition hex_value (c : ascii) : option Z :=
  if between 48 57 c then Some (byte c - 48)
  else if between 97 102 c then Some (byte c - 97 + 10)
  else if between 65 70 c then Some (byte c - 65 + 10)
  else None.

(** A string literal after its opening quote: the bytes up to the closing
    quote, escapes as written, and the text after the closing quote. *)
Fixpoint scan_string (s : list ascii) : option (list ascii * list ascii) :=
  match s with
  | [] => None
  | c :: r =>
      if Ascii.eqb c quote then Some ([], r)
      else if Ascii.eqb c backslash then
        match r with
        | e :: r1 =>
            if existsb (Ascii.eqb e) [quote; backslash; "/"; "b"; "f"; "n"; "r"; "t"]%char
            then match scan_string r1 with
                 | Some (body, rest) => Some (c :: e :: body, rest)
                 | None => None
                 end
            else if Ascii.eqb e "u" then
              match r1 with
              | h1 :: h2 :: h3 :: h4 :: r2 =>
                  match hex_value h1, hex_value h2, hex_value h3, hex_value h4 with
                  | Some _, Some _, Some _, Some _ =>
                      match scan_string r2 with
                      | Some (body, rest) =>
                          Some (c :: e :: h1 :: h2 :: h3 :: h4 :: body, rest)
                      | None => None
                      end
                  | _, _, _, _ => None
                  end
              | _ => None
              end
            else None
        | [] => None
        end
      else if byte c <? 0x20 then None
      else match scan_string r with
           | Some (body, rest) => Some (c :: body, rest)
           | None => None
           end
  end.

Fixpoint skip_digits (s : list ascii) : list ascii :=
  match s with
  | c :: rest => if is_digit c then skip_digits rest else s
  | [] => []
  end.

(** A run of one digit or more. *)
Definition scan_digits (s : list ascii) : option (list ascii) :=
  match s with
  | c :: rest => if is_digit c then Some (skip_digits rest) else None
  | [] => None
  end.

Definition scan_exponent (s : list ascii) : option (list ascii) :=
  match s with
  | c :: rest =>
      if Ascii.eqb c "e" || Ascii.eqb c "E" then
        match rest with
        | sign :: rest' =>
            if Ascii.eqb sign "+" || Ascii.eqb sign "-"
            then scan_digits rest' else scan_digits rest
        | [] => None
        end
      else Some s
  | [] => Some s
  end.

Definition scan_fraction (s : list ascii) : option (list ascii) :=
  match s with
  | c :: rest =>
      if Ascii.eqb c "." then
        match scan_digits rest with
        | Some rest' => scan_exponent rest'
        | None => None
        end
      else scan_exponent s
  | [] => Some s
  end.

Definition scan_number (s : list ascii) : option (list ascii) :=
  let unsigned :=
    match s with
    | c :: rest => if Ascii.eqb c "-" then rest else s
    | [] => s
    end in
  match unsigned with
  | c :: rest =>
      if Ascii.eqb c "0" then scan_fraction rest
      else if is_digit c then scan_fraction (skip_digits rest)
      else None
  | [] => None
  end.

Fixpoint scan_literal (word s : list ascii) : option (list ascii) :=
  match word, s with
  | [], _ => Some s
  | w :: word', c :: rest => if Ascii.eqb w c then scan_literal word' rest else None
  | _ :: _, [] => None
  end.

(** [maxNestingDepth], 10000. *)
Definition maxNestingDepth : nat := 100 * 100.

(** One JSON value at the start of [s], white space before it skipped
    already: the text after the value.  [depth] counts the arrays and
    objects around it.  The recursion is bounded by [fuel]; a valid text
    does not exhaust what [checkValid] gives, one more than its length: an
    array or object uses two units and has two brackets, a further member or
    element uses one and has a comma. *)
Fixpoint scan_value (fuel depth : nat) (s : list ascii) : option (list ascii) :=
  match fuel with
  | O => None
  | S fuel' =>
      match s with
      | [] => None
      | c :: r =>
          if Ascii.eqb c "{" then
            if (maxNestingDepth <? S depth)%nat then None
            else match skipSpace r with
                 | c' :: r' =>
                     if Ascii.eqb c' "}" then Some r'
                     else scan_members fuel' (S depth) (c' :: r')
                 | [] => None
                 end
          else if Ascii.eqb c "[" then
            if (maxNestingDepth <? S depth)%nat then None
            else match skipSpace r with
                 | c' :: r' =>
                     if Ascii.eqb c' "]" then Some r'
                     else scan_elements fuel' (S depth) (c' :: r')
                 | [] => None
                 end
          else if Ascii.eqb c quote then
            match scan_string r with
            | Some (_, rest) => Some rest
            | None => None
            end
          else if Ascii.eqb c "t" then scan_literal (list_ascii_of_string "true") s
          else if Ascii.eqb c "f" then scan_literal (list_ascii_of_string "false") s
          else if Ascii.eqb c "n" then scan_literal (list_ascii_of_string "null") s
          else scan_number s
      end
  end
with scan_members (fuel depth : nat) (s : list ascii) : option (list ascii) :=
  match fuel with
  | O => None
  | S fuel' =>
      match s with
      | c :: r =>
          if Ascii.eqb c quote then
            match scan_string r with
            | Some (_, r1) =>
                match skipSpace r1 with
                | colon :: r2 =>
                    if Ascii.eqb colon ":" then
                      match scan_value fuel' depth (skipSpace r2) with
                      | Some r3 =>
                          match skipSpace r3 with
                          | d :: r4 =>
                              if Ascii.eqb d "," then scan_members fuel' depth (skipSpace r4)
                              else if Ascii.eqb d "}" then Some r4
                              else None
                          | [] => None
                          end
                      | None => None
                      end
                    else None
                | [] => None
                end
            | None => None
            end
          else None
      | [] => None
      end
  end
with scan_elements (fuel depth : nat) (s : list ascii) : option (list ascii) :=
  match fuel with
  | O => None
  | S fuel' =>
      match scan_value fuel' depth s with
      | Some r1 =>
          match skipSpace r1 with
          | d :: r2 =>
              if Ascii.eqb d "," then scan_elements fuel' depth (skipSpace r2)
              else if Ascii.eqb d "]" then Some r2
              else None
          | [] => None
          end
      | None => None
      end
  end.

(** [checkValid(data)]: one value, white space around it allowed. *)
Definition checkValid (data : list ascii) : bool :=
  match scan_value (S (length data)) 0 (skipSpace data) with
  | Some rest => match skipSpace rest with [] => true | _ :: _ => false end
  | None => false
  end.

(** *** The decoder *)

(** [getu4]: the value of the four hexadecimal digits of a [\uXXXX]
    escape at the start of [s], or [-1]. *)
Definition getu4 (s : list ascii) : Z :=
  match s with
  | b :: u :: h1 :: h2 :: h3 :: h4 :: _ =>
      if Ascii.eqb b backslash && Ascii.eqb u "u" then
        match hex_value h1, hex_value h2, hex_value h3, hex_value h4 with
        | Some d1, Some d2, Some d3, Some d4 =>
            ((d1 * 16 + d2) * 16 + d3) * 16 + d4
        | _, _, _, _ => -1
        end
      else -1
  | _ => -1
  end.

(** [utf16.IsSurrogate] and [utf16.DecodeRune]. *)
Definition IsSurrogate (r : Z) : bool := (0xD800 <=? r) && (r <? 0xE000).

Definition utf16_DecodeRune (r1 r2 : Z) : Z :=
  if (0xD800 <=? r1) && (r1 <? 0xDC00) && (0xDC00 <=? r2) && (r2 <? 0xE000)
  then Z.lor (Z.shiftl (r1 - 0xD800) 10) (r2 - 0xDC00) + 0x10000
  else RuneError.

(** The loop of [unquoteBytes] over the bytes between the quotes; [drop]
    bytes of a rune that was decoded are still to be passed over. *)
Fixpoint unquote_from (drop : nat) (s : list ascii) : option (list ascii) :=
  match s with
  | [] => Some []
  | c :: r =>
      match drop with
      | S k => unquote_from k r
      | O =>
          if Ascii.eqb c backslash then
            match r with
            | [] => None
            | e :: r1 =>
                if existsb (Ascii.eqb e) [quote; backslash; "/"; "039"]%char
                then cons e <$> unquote_from 0 r1
                else if Ascii.eqb e "b" then cons "008"%char <$> unquote_from 0 r1
                else if Ascii.eqb e "f" then cons "012"%char <$> unquote_from 0 r1
                else if Ascii.eqb e "n" then cons "010"%char <$> unquote_from 0 r1
                else if Ascii.eqb e "r" then cons "013"%char <$> unquote_from 0 r1
                else if Ascii.eqb e "t" then cons "009"%char <$> unquote_from 0 r1
                else if Ascii.eqb e "u" then
                  let rr := getu4 s in
                  if rr <? 0 then None
                  else
                    match r1 with
                    | _ :: _ :: _ :: _ :: r2 =>
                        if IsSurrogate rr then
                          let dec := utf16_DecodeRune rr (getu4 r2) in
                          if negb (dec =? RuneError) then
                            app (EncodeRune dec) <$> unquote_from 6 r2
                          else app (EncodeRune RuneError) <$> unquote_from 0 r2
                        else app (EncodeRune rr) <$> unquote_from 0 r2
                    | _ => None
                    end
                else None
            end
          else if Ascii.eqb c quote || (byte c <? 0x20) then None
          else if byte c <? 0x80 then cons c <$> unquote_from 0 r
          else
            let '(rr, size) := DecodeRune s in
            app (EncodeRune rr) <$> unquote_from (size - 1) r
      end
  end.

Definition unquote (body : list ascii) : option string :=
  string_of_list_ascii <$> unquote_from 0 body.

(** What decoding the value of a member into a string leaves: the string
    of a string literal; the zero value for [null]; the zero value and a type
    error for any other value.  The result has the string, the type error if
    any, and the text after the value. *)
Definition member_value (fuel : nat) (s : list ascii)
    : option (string * option error * list ascii) :=
  match s with
  | v :: r =>
      if Ascii.eqb v quote then
        match scan_string r with
        | Some (raw, rest) =>
            match unquote raw with
            | Some text => Some (text, None, rest)
            | None => None
            end
        | None => None
        end
      else
        match scan_value fuel 1 s with
        | Some rest =>
            if Ascii.eqb v "n" then Some ("", None, rest)
            else if Ascii.eqb v "{" then
              Some ("", Some (json_UnmarshalTypeError "object"), rest)
            else if Ascii.eqb v "[" then
              Some ("", Some (json_UnmarshalTypeError "array"), rest)
            else if Ascii.eqb v "t" || Ascii.eqb v "f" then
              Some ("", Some (json_UnmarshalTypeError "bool"), rest)
            else Some ("", Some (json_UnmarshalTypeError "number"), rest)
        | None => None
        end
  | [] => None
  end.

(** The members of an object, from its first key on, stored into [m]; of
    the type errors the first is kept in [saved]. *)
Fixpoint object_members (fuel : nat) (s : list ascii) (m : gmap string string)
    (saved : option error) : option (gmap string string * option error) :=
  match fuel with
  | O => None
  | S fuel' =>
      match s with
      | c :: r =>
          if Ascii.eqb c quote then
            match scan_string r with
            | Some (raw_key, r1) =>
                match unquote raw_key, skipSpace r1 with
                | Some key, colon :: r2 =>
                    match member_value fuel' (skipSpace r2) with
                    | Some (text, err, r3) =>
                        let saved' := match saved with
                                      | Some _ => saved
                                      | None => err
                                      end in
                        match skipSpace r3 with
                        | d :: r4 =>
                            if Ascii.eqb d ","
                            then object_members fuel' (skipSpace r4)
                                   (<[key := text]> m) saved'
                            else if Ascii.eqb d "}"
                            then Some (<[key := text]> m, saved')
                            else None
                        | [] => None
                        end
                    | None => None
                    end
                | _, _ => None
                end
            | None => None
            end
          else None
      | [] => None
      end
  end.

(** [json.Unmarshal(data, &v)] for a map [v]: the map after decoding, or
    the error. *)
Definition Unmarshal (data : list ascii) (v : Metadata) : Metadata + error :=
  if checkValid data then
    match skipSpace data with
    | c :: r =>
        if Ascii.eqb c "{" then
          let m := default ∅ v in
          match skipSpace r with
          | c' :: r' =>
              if Ascii.eqb c' "}" then inl (Some m)
              else
                match object_members (length data) (c' :: r') m None with
                | Some (m', None) => inl (Some m')
                | Some (_, Some err) => inr err
                | None => inr json_SyntaxError
                end
          | [] => inr json_SyntaxError
          end
        else if Ascii.eqb c "n" then inl None
        else if Ascii.eqb c "[" then inr (json_UnmarshalTypeError "array")
        else if Ascii.eqb c quote then inr (json_UnmarshalTypeError "string")
        else if Ascii.eqb c "t" || Ascii.eqb c "f"
        then inr (json_UnmarshalTypeError "bool")
        else inr (json_UnmarshalTypeError "number")
    | [] => inr json_SyntaxError
    end
  else inr json_SyntaxError.

End json.

(** ** offsets_adapter_sqlite.go *)

Definition LF : string := String "010" "".
Definition TAB : string := String "009" "".

Module DefaultSQLiteOffsetsAdapter.

(** [GenerateMessagesOffsetsTableName] is a function value, nil by
    default. *)
Record t : Type := mk {
  GenerateMessagesOffsetsTableName : option (string -> string)
}.

Definition MessagesOffsetsTable (a : t) (topic : string) : string :=
  match GenerateMessagesOffsetsTableName a with
  | Some generate => generate topic
  | None => "`watermill_offsets_" +:+ topic +:+ "`"
  end.

Definition SchemaInitializingQueries (a : t) (topic : string) : list Query :=
  [ mkQuery
      (LF +:+ TAB +:+ TAB +:+ TAB +:+ TAB +:+
       "CREATE TABLE IF NOT EXISTS " +:+ MessagesOffsetsTable a topic +:+ " (" +:+
       LF +:+ TAB +:+ TAB +:+ TAB +:+ TAB +:+ "consumer_group TEXT NOT NULL," +:+
       LF +:+ TAB +:+ TAB +:+ TAB +:+ TAB +:+ "offset_acked INTEGER," +:+
       LF +:+ TAB +:+ TAB +:+ TAB +:+ TAB +:+ "offset_consumed INTEGER NOT NULL," +:+
       LF +:+ TAB +:+ TAB +:+ TAB +:+ TAB +:+ "PRIMARY KEY(consumer_group)" +:+
       LF +:+ TAB +:+ TAB +:+ TAB +:+ ")")
      [] ].

Definition AckMessageQuery (a : t) (topic : string) (row : Row)
    (consumerGroup : string) : Query :=
  let ackQuery :=
    "INSERT INTO " +:+ MessagesOffsetsTable a topic +:+
    " (offset_consumed, offset_acked, consumer_group)" +:+
    LF +:+ TAB +:+ TAB +:+
    "VALUES (?, ?, ?) ON DUPLICATE KEY UPDATE offset_consumed=VALUES(offset_consumed), offset_acked=VALUES(offset_acked)" in
  mkQuery ackQuery
    [any_int64 (Row_Offset row); any_int64 (Row_Offset row); any_string consumerGroup].

Definition NextOffsetQuery (a : t) (topic consumerGroup : string) : Query :=
  mkQuery
    ("SELECT COALESCE(" +:+
     LF +:+ TAB +:+ TAB +:+ TAB +:+ TAB +:+ "(SELECT offset_acked" +:+
     LF +:+ TAB +:+ TAB +:+ TAB +:+ TAB +:+ " FROM " +:+ MessagesOffsetsTable a topic +:+
     LF +:+ TAB +:+ TAB +:+ TAB +:+ TAB +:+ " WHERE consumer_group=? FOR UPDATE" +:+
     LF +:+ TAB +:+ TAB +:+ TAB +:+ TAB +:+ "), 0)")
    [any_string consumerGroup].

(** [consumerULID] is a parameter of the interface method that this
    adapter does not use. *)
Definition ConsumedMessageQuery (a : t) (topic : string) (row : Row)
    (consumerGroup : string) (consumerULID : bytes) : Query :=
  let ackQuery :=
    "INSERT INTO " +:+ MessagesOffsetsTable a topic +:+
    " (offset_consumed, consumer_group)" +:+
    LF +:+ TAB +:+ TAB +:+
    "VALUES (?, ?) ON DUPLICATE KEY UPDATE offset_consumed=VALUES(offset_consumed)" in
  mkQuery ackQuery [any_int64 (Row_Offset row); any_string consumerGroup].

Definition BeforeSubscribingQueries (a : t) (topic consumerGroup : string)
    : list Query := [].

End DefaultSQLiteOffsetsAdapter.

#[export] Instance DefaultSQLiteOffsetsAdapter_OffsetsAdapter
    : OffsetsAdapter DefaultSQLiteOffsetsAdapter.t :=
  {| NextOffsetQuery := DefaultSQLiteOffsetsAdapter.NextOffsetQuery |}.

(** ** schema_adapter_sqlite.go *)

Module DefaultSQLiteSchema.

Record t : Type := mk {
  GenerateMessagesTableName : option (string -> string);
  SubscribeBatchSize : Z
}.

Definition MessagesTable (s : t) (topic : string) : string :=
  match GenerateMessagesTableName s with
  | Some generate => generate topic
  | None => "`watermill_" +:+ topic +:+ "`"
  end.

Definition SchemaInitializingQueries (s : t) (topic : string) : list Query :=
  let createMessagesTable :=
    strings.Join
      [ "CREATE TABLE IF NOT EXISTS " +:+ MessagesTable s topic +:+ " (";
        "`offset` INTEGER NOT NULL AUTOINCREMENT PRIMARY KEY,";
        "`uuid` TEXT NOT NULL,";
        "`created_at` TEXT NOT NULL,";
        "`payload` BLOB DEFAULT NULL,";
        "`metadata` BLOB DEFAULT NULL";
        ");" ]
      LF in
  [ mkQuery createMessagesTable [] ].

Definition batchSize (s : t) : Z :=
  if SubscribeBatchSize s =? 0 then 100 else SubscribeBatchSize s.

Definition SelectQuery {A : Type} `{OffsetsAdapter A} (s : t)
    (topic consumerGroup : string) (offsetsAdapter : A) : Query :=
  let nextOffsetQuery := NextOffsetQuery offsetsAdapter topic consumerGroup in
  let selectQuery :=
    LF +:+ TAB +:+ TAB +:+
    "SELECT offset, uuid, payload, metadata FROM " +:+ MessagesTable s topic +:+
    LF +:+ TAB +:+ TAB +:+ "WHERE " +:+
    LF +:+ TAB +:+ TAB +:+ TAB +:+ "offset > (" +:+ Query_Query nextOffsetQuery +:+ ")" +:+
    LF +:+ TAB +:+ TAB +:+ "ORDER BY " +:+
    LF +:+ TAB +:+ TAB +:+ TAB +:+ "offset ASC" +:+
    LF +:+ TAB +:+ TAB +:+ "LIMIT " +:+ fmt.Sprintf_d (batchSize s) in
  mkQuery selectQuery (Query_Args nextOffsetQuery).

Definition SubscribeIsolationLevel (s : t) : Z := LevelSerializable.

(** [InsertQuery] and [UnmarshalMessage] call [json.Marshal] and
    [json.Unmarshal] of the Go library on the metadata map.  The section
    takes the two as parameters; [encoding_json] below gives the library's
    functions. *)
Section Codec.

Variable json_Marshal : Metadata -> list ascii + error.
Variable json_Unmarshal : list ascii -> Metadata -> Metadata + error.

(** The loop of [InsertQuery] over the messages, [args] being the arguments
    appended so far.  [message.Messages] is a slice of pointers; the list
    holds the messages they point to (on a nil pointer the Go code
    panics). *)
Fixpoint InsertQuery_loop (msgs : list Message) (args : list any)
    : list any + error :=
  match msgs with
  | [] => inl args
  | msg :: rest =>
      match json_Marshal (Message_Metadata msg) with
      | inr err =>
          inr (errors_Wrap err
                 ("could not marshal metadata into JSON for message " +:+
                  Message_UUID msg))
      | inl metadata =>
          InsertQuery_loop rest
            (args ++ [ any_string (Message_UUID msg);
                       any_string (string_of_bytes (Message_Payload msg));
                       any_string (string_of_list_ascii metadata) ])
      end
  end.

Definition InsertQuery (s : t) (topic : string) (msgs : list Message)
    : Query * option error :=
  let insertQuery :=
    "INSERT INTO " +:+ MessagesTable s topic +:+
    " (uuid, payload, metadata) VALUES " +:+
    strings.TrimRight (strings.Repeat "(?,?,?)," (length msgs)) "," in
  match InsertQuery_loop msgs [] with
  | inr err => (Query_zero, Some err)
  | inl args => (mkQuery insertQuery args, None)
  end.

Definition UnmarshalMessage {S : Type} `{Scanner S} (s : t) (row : S)
    : Row * option error :=
  match Scan row with
  | inr err => (Row_zero, Some (errors_Wrap err "could not scan message row"))
  | inl (offset, uuid, payload, metadata) =>
      let r := mkRow offset uuid payload metadata None in
      let msg := NewMessage (string_of_bytes (Row_UUID r)) (Row_Payload r) in
      match Row_Metadata r with
      | Some data =>
          match json_Unmarshal data (Message_Metadata msg) with
          | inr err =>
              (Row_zero,
               Some (errors_Wrap err "could not unmarshal metadata as JSON"))
          | inl decoded =>
              (mkRow offset uuid payload metadata
                 (Some (mkMessage (Message_UUID msg) decoded (Message_Payload msg))),
               None)
          end
      | None => (mkRow offset uuid payload metadata (Some msg), None)
      end
  end.

End Codec.

End DefaultSQLiteSchema.

(** ** Reading a statement

    What a statement says is read off its text by small left-to-right
    readers: keywords are matched after skipping white space, names and
    placeholder tuples are collected, and the name of the table is matched
    literally (a table name generator may return any text). *)

Definition is_space (c : ascii) : bool :=
  match c with
  | " "%char | "009"%char | "010"%char | "013"%char => true
  | _ => false
  end.

(** The bytes of a name: letters, digits and the underscore. *)
Definition is_name_char (c : ascii) : bool :=
  match c with
  | "0" | "1" | "2" | "3" | "4" | "5" | "6" | "7" | "8" | "9"
  | "A" | "B" | "C" | "D" | "E" | "F" | "G" | "H" | "I" | "J" | "K" | "L" | "M"
  | "N" | "O" | "P" | "Q" | "R" | "S" | "T" | "U" | "V" | "W" | "X" | "Y" | "Z"
  | "a" | "b" | "c" | "d" | "e" | "f" | "g" | "h" | "i" | "j" | "k" | "l" | "m"
  | "n" | "o" | "p" | "q" | "r" | "s" | "t" | "u" | "v" | "w" | "x" | "y" | "z"
  | "_" => true
  | _ => false
  end%char.

Fixpoint skip_spaces (s : string) : string :=
  match s with
  | String c rest => if is_space c then skip_spaces rest else s
  | "" => ""
  end.

Fixpoint strip_prefix (p s : string) : option string :=
  match p, s with
  | "", _ => Some s
  | String a p', String b s' => if Ascii.eqb a b then strip_prefix p' s' else None
  | String _ _, "" => None
  end.

(** A reader consumes a prefix of the text and returns the rest. *)
Definition reader (A : Type) : Type := string -> option (A * string).

Definition ret {A : Type} (a : A) : reader A := fun s => Some (a, s).

Definition bind {A B : Type} (r : reader A) (k : A -> reader B) : reader B :=
  fun s => match r s with
           | Some (a, rest) => k a rest
           | None => None
           end.

Notation "x <- r ;; k" := (bind r (fun x => k))
  (at level 100, r at next level, right associativity).
Notation "r ;;; k" := (bind r (fun _ => k))
  (at level 100, right associativity).

(** The literal [p], at the very start of the text. *)
Definition lit (p : string) : reader unit :=
  fun s => match strip_prefix p s with
           | Some rest => Some (tt, rest)
           | None => None
           end.

(** The keyword or symbol [p], after any white space. *)
Definition tok (p : string) : reader unit :=
  fun s => lit p (skip_spaces s).

(** Whether the keyword [p] comes next; it is consumed when it does. *)
Definition opt_tok (p : string) : reader bool :=
  fun s => match strip_prefix p (skip_spaces s) with
           | Some rest => Some (true, rest)
           | None => Some (false, s)
           end.

(** Nothing but white space is left. *)
Definition end_of_text : reader unit :=
  fun s => match skip_spaces s with
           | "" => Some (tt, "")
           | String _ _ => None
           end.

(** The longest run of name characters at the start of the text. *)
Fixpoint name_chars (s : string) : string * string :=
  match s with
  | String c rest =>
      if is_name_char c
      then let '(n, rest') := name_chars rest in (String c n, rest')
      else ("", s)
  | "" => ("", "")
  end.

(** A name (a column, a function), after any white space. *)
Definition name : reader string :=
  fun s => match name_chars (skip_spaces s) with
           | ("", _) => None
           | (n, rest) => Some (n, rest)
           end.

(** A comma-separated list of names, read one byte at a time: [cur] is the
    name being read ([None] between names), [sep] tells that a comma has just
    been passed, [acc] holds the names already read. *)
Fixpoint names_from (cur : option string) (sep : bool) (acc : list string)
    (s : string) : option (list string * string) :=
  match s with
  | "" =>
      match cur with
      | Some n => Some (acc ++ [n], "")
      | None => if sep then None else Some (acc, "")
      end
  | String c rest =>
      match cur with
      | Some n =>
          if is_name_char c then names_from (Some (n +:+ String c "")) false acc rest
          else if Ascii.eqb c ","%char then names_from None true (acc ++ [n]) rest
          else if is_space c then names_from None false (acc ++ [n]) rest
          else Some (acc ++ [n], s)
      | None =>
          if is_space c then names_from None sep acc rest
          else if Ascii.eqb c ","%char then
            if sep then None else names_from None true acc rest
          else if is_name_char c then
            if sep then names_from (Some (String c "")) false acc rest
            else Some (acc, s)
          else if sep then None else Some (acc, s)
      end
  end.

Definition names : reader (list string) := names_from None true [].

(** A comma-separated list of parenthesised placeholder tuples, as after
    [VALUES]: the result has the number of [?] of each tuple.  [cur] counts
    the placeholders of the tuple being read ([None] between tuples). *)
Fixpoint tuples_from (cur : option nat) (acc : list nat) (s : string)
    : option (list nat * string) :=
  match s with
  | "" =>
      match cur with
      | Some _ => None
      | None => Some (acc, "")
      end
  | String c rest =>
      match cur with
      | Some n =>
          if Ascii.eqb c "?"%char then tuples_from (Some (S n)) acc rest
          else if Ascii.eqb c ","%char || is_space c then tuples_from cur acc rest
          else if Ascii.eqb c ")"%char then tuples_from None (acc ++ [n]) rest
          else None
      | None =>
          if Ascii.eqb c "("%char then tuples_from (Some O) acc rest
          else if Ascii.eqb c ","%char || is_space c then tuples_from None acc rest
          else Some (acc, s)
      end
  end.

Definition tuples : reader (list nat) := tuples_from None [].

(** One assignment [column=VALUES(source)] of an upsert. *)
Definition assignment : reader (string * string) :=
  column <- name ;; tok "=" ;;; tok "VALUES" ;;; tok "(" ;;;
  source <- name ;; tok ")" ;;; ret (column, source).

(** A comma-separated list of assignments; the text bounds their number. *)
Fixpoint assignments_upto (fuel : nat) : reader (list (string * string)) :=
  match fuel with
  | O => fun _ => None
  | S fuel' =>
      a <- assignment ;;
      more <- opt_tok "," ;;
      if more : bool
      then (l <- assignments_upto fuel' ;; ret (a :: l))
      else ret [a]
  end.

Definition assignments : reader (list (string * string)) :=
  fun s => assignments_upto (String.length s) s.

(** A decimal integer that makes up the rest of the text. *)
Definition integer_to_end : reader Z :=
  fun s => match NilZero.int_of_string s with
           | Some d => Some (Z.of_int d, "")
           | None => None
           end.

(** A run of decimal digits, after any white space. *)
Definition digits : reader Z :=
  n <- name ;;
  fun s => match NilZero.uint_of_string n with
           | Some d => Some (Z.of_uint d, s)
           | None => None
           end.

(** [CREATE TABLE [IF NOT EXISTS] <table> (<body>]: whether the statement
    creates the table only when it is missing, and the column definitions. *)
Record create_table : Type := mkCreate {
  create_if_not_exists : bool;
  create_body : string
}.

Definition read_create (table : string) : reader create_table :=
  tok "CREATE" ;;; tok "TABLE" ;;;
  guarded <- opt_tok "IF" ;;
  (if guarded : bool then tok "NOT" ;;; tok "EXISTS" else ret tt) ;;;
  lit " " ;;; lit table ;;; tok "(" ;;;
  fun body => Some (mkCreate guarded body, "").

(** The text that follows the first occurrence of [needle]. *)
Fixpoint find_after (needle s : string) : option string :=
  match strip_prefix needle s with
  | Some rest => Some rest
  | None =>
      match s with
      | String _ s' => find_after needle s'
      | "" => None
      end
  end.

(** The column of the [PRIMARY KEY(<column>)] constraint among the column
    definitions of a table. *)
Definition primary_key (c : create_table) : option string :=
  match find_after "PRIMARY KEY(" (create_body c) with
  | Some rest =>
      match name rest with
      | Some (column, _) => Some column
      | None => None
      end
  | None => None
  end.

(** [INSERT INTO <table> (<columns>) VALUES <tuples>
    [ON DUPLICATE KEY UPDATE <assignments>]]. *)
Record insert_into : Type := mkInsert {
  insert_columns : list string;
  insert_tuples : list nat;
  insert_on_duplicate_key_update : list (string * string)
}.

Definition read_insert (table : string) : reader insert_into :=
  tok "INSERT" ;;; tok "INTO" ;;; lit " " ;;; lit table ;;;
  tok "(" ;;; columns <- names ;; tok ")" ;;;
  tok "VALUES" ;;; rows <- tuples ;;
  upsert <- opt_tok "ON" ;;
  updates <- (if upsert : bool
              then tok "DUPLICATE" ;;; tok "KEY" ;;; tok "UPDATE" ;;; assignments
              else ret []) ;;
  end_of_text ;;; ret (mkInsert columns rows updates).

(** [SELECT COALESCE((SELECT <column> FROM <table> WHERE <key>=?
    [FOR UPDATE]), <default>)]. *)
Record select_coalesce : Type := mkCoalesce {
  coalesce_column : string;
  coalesce_key : string;
  coalesce_for_update : bool;
  coalesce_default : Z
}.

Definition read_coalesce (table : string) : reader select_coalesce :=
  tok "SELECT" ;;; tok "COALESCE" ;;; tok "(" ;;; tok "(" ;;; tok "SELECT" ;;;
  column <- name ;; tok "FROM" ;;; lit " " ;;; lit table ;;;
  tok "WHERE" ;;; key <- name ;; tok "=" ;;; tok "?" ;;;
  locked <- opt_tok "FOR" ;;
  (if locked : bool then tok "UPDATE" else ret tt) ;;;
  tok ")" ;;; tok "," ;;; default <- digits ;; tok ")" ;;;
  end_of_text ;;; ret (mkCoalesce column key locked default).

(** [SELECT <columns> FROM <table> WHERE <column> > (<bound>)
    ORDER BY <column> ASC|DESC LIMIT <n>], the bound being a subquery whose
    text is matched literally. *)
Record select_after : Type := mkSelect {
  select_columns : list string;
  select_where : string;
  select_strict : bool;
  select_order_by : string;
  select_ascending : bool;
  select_limit : Z
}.

Definition read_select (table bound : string) : reader select_after :=
  tok "SELECT" ;;; columns <- names ;;
  tok "FROM" ;;; lit " " ;;; lit table ;;;
  tok "WHERE" ;;; compared <- name ;; tok ">" ;;;
  inclusive <- opt_tok "=" ;;
  tok "(" ;;; lit bound ;;; lit ")" ;;;
  tok "ORDER" ;;; tok "BY" ;;; ordered <- name ;;
  descending <- opt_tok "DESC" ;;
  (if descending : bool then ret tt else tok "ASC") ;;;
  tok "LIMIT" ;;; lit " " ;;; limit <- integer_to_end ;;
  ret (mkSelect columns compared (negb inclusive) ordered (negb descending) limit).

(** The text of a statement as read by [r], when [r] reads all of it. *)
Definition reads {A : Type} (r : reader A) (q : Query) : option A :=
  match r (Query_Query q) with
  | Some (a, _) => Some a
  | None => None
  end.

(** ** The column list of a [CREATE TABLE]

    The text between the parentheses of a [CREATE TABLE], checked as
    SQLite's parser checks it, for definitions without expressions: a list,
    separated by commas, of column definitions and of [PRIMARY KEY] and
    [UNIQUE] table constraints.  A column definition is a name, a type name
    and column constraints: [NOT NULL], [NULL], [UNIQUE], [DEFAULT] or
    [COLLATE] with a word, and [PRIMARY KEY], which alone may be followed by
    [ASC] or [DESC] and then by [AUTOINCREMENT].  The check stops at the
    first token that fits nowhere, as the parser does when it reports a
    syntax error near that token. *)

Inductive token : Type :=
| T_word (w : string)
| T_quoted (name : string)
| T_open
| T_close
| T_comma
| T_semicolon
| T_other (c : ascii).

(** Where the tokenizer stands: between tokens, inside a word, inside a
    backtick-quoted name, or after a backtick inside such a name (the
    closing one, unless another backtick follows). *)
Inductive lexer_state : Type :=
| L_none
| L_word (w : string)
| L_quoted (name : string)
| L_closing (name : string).

Definition punctuation (c : ascii) : token :=
  match c with
  | "("%char => T_open
  | ")"%char => T_close
  | ","%char => T_comma
  | ";"%char => T_semicolon
  | _ => T_other c
  end.

(** The tokens of a text, or nothing when a quoted name is not closed. *)
Fixpoint tokens_from (st : lexer_state) (s : string) : option (list token) :=
  match s with
  | "" =>
      match st with
      | L_none => Some []
      | L_word w => Some [T_word w]
      | L_quoted _ => None
      | L_closing name => Some [T_quoted name]
      end
  | String c rest =>
      let start (_ : unit) :=
        if is_space c then tokens_from L_none rest
        else if is_name_char c then tokens_from (L_word (String c "")) rest
        else if Ascii.eqb c "`" then tokens_from (L_quoted "") rest
        else cons (punctuation c) <$> tokens_from L_none rest in
      match st with
      | L_none => start tt
      | L_word w =>
          if is_name_char c then tokens_from (L_word (w +:+ String c "")) rest
          else cons (T_word w) <$> start tt
      | L_quoted name =>
          if Ascii.eqb c "`" then tokens_from (L_closing name) rest
          else tokens_from (L_quoted (name +:+ String c "")) rest
      | L_closing name =>
          if Ascii.eqb c "`" then tokens_from (L_quoted (name +:+ "`")) rest
          else cons (T_quoted name) <$> start tt
      end
  end.

Definition tokens : string -> option (list token) := tokens_from L_none.

Definition token_text (t : token) : string :=
  match t with
  | T_word w => w
  | T_quoted name => "`" +:+ name +:+ "`"
  | T_open => "("
  | T_close => ")"
  | T_comma => ","
  | T_semicolon => ";"
  | T_other c => String c ""
  end.

(** The token at which a text stops fitting the grammar: the next one. *)
Definition near (ts : list token) : string :=
  match ts with
  | t :: _ => token_text t
  | [] => ""
  end.

(** The words that start or continue a column constraint: a type name
    ends before the first of them. *)
Definition constraint_keyword (w : string) : bool :=
  existsb (String.eqb w)
    ["CONSTRAINT"; "PRIMARY"; "NOT"; "NULL"; "UNIQUE"; "CHECK"; "DEFAULT";
     "COLLATE"; "REFERENCES"; "GENERATED"; "AS"; "AUTOINCREMENT"].

(** The tokens after a type name of zero or more words. *)
Fixpoint type_name (ts : list token) : list token :=
  match ts with
  | T_word w :: rest => if constraint_keyword w then ts else type_name rest
  | _ => ts
  end.

(** The column constraints of one column, up to the comma or the closing
    parenthesis after them: the tokens from there on, or the token near which
    they do not fit.  [order] tells that [PRIMARY KEY] has just been read, so
    that [ASC] or [DESC] may follow, and [autoincrement] that [AUTOINCREMENT]
    may follow. *)
Fixpoint column_constraints (order autoincrement : bool) (ts : list token)
    : list token + string :=
  match ts with
  | T_comma :: _ | T_close :: _ => inl ts
  | T_word w :: rest =>
      if String.eqb w "AUTOINCREMENT" then
        if autoincrement then column_constraints false false rest
        else inr (near ts)
      else if String.eqb w "ASC" || String.eqb w "DESC" then
        if order then column_constraints false true rest else inr (near ts)
      else if String.eqb w "NOT" then
        match rest with
        | T_word n :: rest' =>
            if String.eqb n "NULL" then column_constraints false false rest'
            else inr (near rest)
        | _ => inr (near rest)
        end
      else if String.eqb w "NULL" || String.eqb w "UNIQUE" then
        column_constraints false false rest
      else if String.eqb w "PRIMARY" then
        match rest with
        | T_word k :: rest' =>
            if String.eqb k "KEY" then column_constraints true true rest'
            else inr (near rest)
        | _ => inr (near rest)
        end
      else if String.eqb w "DEFAULT" || String.eqb w "COLLATE" then
        match rest with
        | T_word _ :: rest' => column_constraints false false rest'
        | _ => inr (near rest)
        end
      else inr (near ts)
  | _ => inr (near ts)
  end.

(** A list of column names between parentheses, as in a [PRIMARY KEY] or
    [UNIQUE] table constraint, from its first name on. *)
Fixpoint column_names (ts : list token) : list token + string :=
  match ts with
  | T_word _ :: rest | T_quoted _ :: rest =>
      match rest with
      | T_comma :: rest' => column_names rest'
      | T_close :: rest' => inl rest'
      | _ => inr (near rest)
      end
  | _ => inr (near ts)
  end.

(** One item of the column list. *)
Definition column_list_item (ts : list token) : list token + string :=
  match ts with
  | T_word w :: rest =>
      if String.eqb w "PRIMARY" then
        match rest with
        | T_word k :: T_open :: rest' =>
            if String.eqb k "KEY" then column_names rest' else inr (near rest)
        | _ => inr (near rest)
        end
      else if String.eqb w "UNIQUE" then
        match rest with
        | T_open :: rest' => column_names rest'
        | _ => inr (near rest)
        end
      else if constraint_keyword w then inr (near ts)
      else column_constraints false false (type_name rest)
  | T_quoted _ :: rest => column_constraints false false (type_name rest)
  | _ => inr (near ts)
  end.

(** The items of the column list up to the closing parenthesis, after
    which only a semicolon may stand; the text bounds their number. *)
Fixpoint column_list_items (fuel : nat) (ts : list token) : option string :=
  match fuel with
  | O => Some (near ts)
  | S fuel' =>
      match column_list_item ts with
      | inr stop => Some stop
      | inl (T_comma :: rest) => column_list_items fuel' rest
      | inl (T_close :: rest) =>
          match rest with
          | [] | [T_semicolon] => None
          | T_semicolon :: rest' => Some (near rest')
          | _ => Some (near rest)
          end
      | inl rest => Some (near rest)
      end
  end.

(** The token near which the column list is not well formed, if any. *)
Definition column_list_error (body : string) : option string :=
  match tokens body with
  | Some ts => column_list_items (length ts) ts
  | None => Some "`"
  end.

(** The error of the parser: [near "<token>": syntax error]. *)
Definition syntax_error (stop : string) : error :=
  errors_New ("near " +:+ String "034" (stop +:+ String "034" ": syntax error")).

(** ** Running a schema statement

    The store as schema initialization sees it: the tables that exist, each
    with its column definitions and its rows.  A statement is parsed before
    it is run: a [CREATE TABLE] whose column list is not well formed is a
    syntax error, whether the table exists or not.  A well-formed
    [CREATE TABLE] fails on a table that exists; with [IF NOT EXISTS] it
    leaves that table alone. *)

Record stored_table : Type := mkTable {
  table_definition : string;
  table_rows : list (list any)
}.

Definition run_create (table : string) (q : Query)
    (db : gmap string stored_table) : gmap string stored_table + error :=
  match reads (read_create table) q with
  | None => inr (errors_New "syntax error")
  | Some c =>
      match column_list_error (create_body c) with
      | Some stop => inr (syntax_error stop)
      | None =>
          match db !! table with
          | Some _ =>
              if create_if_not_exists c then inl db
              else inr (errors_New "table already exists")
          | None => inl (<[table := mkTable (create_body c) []]> db)
          end
      end
  end.

(** The statements of a schema initialization, run in order until one
    fails. *)
Fixpoint run_schema (table : string) (qs : list Query)
    (db : gmap string stored_table) : gmap string stored_table + error :=
  match qs with
  | [] => inl db
  | q :: rest =>
      match run_create table q db with
      | inl db' => run_schema table rest db'
      | inr err => inr err
      end
  end.

(** A schema initialization that only creates what is missing: its one
    statement is a [CREATE TABLE IF NOT EXISTS] of the table, without
    arguments; on a store that has the table it runs without error and
    changes nothing; and on any store it runs without error, keeps every
    table with its rows, and leaves a store on which running it again
    changes nothing. *)
Definition create_if_not_exists_schema (table : string) (qs : list Query)
    : Prop :=
  (exists q,
     qs = [q] /\ Query_Args q = [] /\
     create_if_not_exists <$> reads (read_create table) q = Some true) /\
  (forall db, is_Some (db !! table) -> run_schema table qs db = inl db) /\
  (forall db, exists db',
     run_schema table qs db = inl db' /\ db ⊆ db' /\
     run_schema table qs db' = inl db').

(** ** Publishing a message and fetching it back *)

(** What [InsertQuery] binds for a message whose metadata is encoded as
    [metadata]. *)
Definition bound_values (msg : Message) (metadata : list ascii) : list any :=
  [ any_string (Message_UUID msg);
    any_string (string_of_bytes (Message_Payload msg));
    any_string (string_of_list_ascii metadata) ].

(** The row that the store hands back for the values bound for one message:
    its columns hold the bytes that were bound. *)
Definition stored_row (offset : Z) (args : list any) : option sql_Row :=
  match args with
  | [any_string uuid; any_string payload; any_string metadata] =>
      Some (sql_Row_columns offset (bytes_of_string uuid)
              (bytes_of_string payload) (bytes_of_string metadata))
  | _ => None
  end.

(** One message encoded by [InsertQuery], stored, and decoded by
    [UnmarshalMessage]. *)
Definition round_trip (s : DefaultSQLiteSchema.t) (topic : string)
    (offset : Z) (msg : Message) : option Message :=
  match DefaultSQLiteSchema.InsertQuery json.Marshal s topic [msg] with
  | (q, None) =>
      match stored_row offset (Query_Args q) with
      | Some row =>
          match DefaultSQLiteSchema.UnmarshalMessage json.Unmarshal s row with
          | (r, None) => Row_Msg r
          | (_, Some _) => None
          end
      | None => None
      end
  | (_, Some _) => None
  end.

Definition valid_string (s : string) : Prop := utf8.ValidString s = true.

(** The metadata all of whose keys and values are valid UTF-8. *)
Definition valid_metadata (v : Metadata) : Prop :=
  match v with
  | None => True
  | Some m => map_Forall (fun k x => valid_string k /\ valid_string x) m
  end.

(** ** Notions of the proofs *)

(** A rune of two bytes or more as [DecodeRune] accepts it: its bytes, all
    of them outside ASCII, are what [EncodeRune] writes, and nothing after
    them matters. *)
Definition multibyte (bs : list ascii) (r : Z) : Prop :=
  (2 <= length bs <= 4)%nat /\
  Forall (fun c => 0x80 <= utf8.byte c) bs /\
  utf8.EncodeRune r = bs /\
  0x80 <= r /\
  forall t, utf8.DecodeRune (bs ++ t) = (r, length bs).

(** What [appendString] writes for an ASCII byte. *)
Definition ascii_out (b : ascii) : list ascii :=
  if json.htmlSafe b then [b] else json.escape b.

(** The result of [scan_string] with [chunk] read before it. *)
Definition prepend (chunk : list ascii) (r : option (list ascii * list ascii))
    : option (list ascii * list ascii) :=
  match r with
  | Some (body, rest) => Some (chunk ++ body, rest)
  | None => None
  end.

(** The text of the members [l] of an object, up to its closing brace. *)
Definition members_text (l : list (string * string)) (rest : list ascii)
    : list ascii :=
  json.join [","%char] (json.member <$> l) ++ "}"%char :: rest.

Definition store_member (m : gmap string string) (kv : string * string)
    : gmap string string := <[kv.1 := kv.2]> m.

(** ** Placeholders and table names *)

(** The number of bytes [c] in a text. *)
Fixpoint count_byte (c : ascii) (s : string) : nat :=
  match s with
  | "" => O
  | String d rest => ((if Ascii.eqb c d then 1 else 0) + count_byte c rest)%nat
  end.

(** The question marks of a statement: with a table name that has none,
    they are its positional placeholders. *)
Definition placeholders (s : string) : nat := count_byte "?" s.

(** A statement that binds one argument per placeholder. *)
Definition balanced (q : Query) : Prop :=
  placeholders (Query_Query q) = length (Query_Args q).

(** The name inside a backtick-quoted identifier, read after its opening
    backtick up to the closing one; inside the quotes a doubled backtick
    stands for one backtick of the name. *)
Fixpoint quoted_chars (s : string) : option (string * string) :=
  match s with
  | "" => None
  | String c rest =>
      if Ascii.eqb c "`" then
        match rest with
        | String c' rest' =>
            if Ascii.eqb c' "`" then
              match quoted_chars rest' with
              | Some (n, r) => Some (String "`" n, r)
              | None => None
              end
            else Some ("", rest)
        | "" => Some ("", "")
        end
      else
        match quoted_chars rest with
        | Some (n, r) => Some (String c n, r)
        | None => None
        end
  end.

(** A backtick-quoted identifier at the start of the text. *)
Definition quoted_identifier : reader string :=
  fun s => match s with
           | String c rest =>
               if Ascii.eqb c "`" then quoted_chars rest else None
           | "" => None
           end.

(** ** Reading column definitions *)

(** The parts of a text between its commas. *)
Fixpoint split_commas_from (cur : string) (s : string) : list string :=
  match s with
  | "" => [cur]
  | String c rest =>
      if Ascii.eqb c "," then cur :: split_commas_from "" rest
      else split_commas_from (cur +:+ String c "") rest
  end.

Definition split_commas : string -> list string := split_commas_from "".

(** The words of a text: its maximal runs of name characters. *)
Fixpoint words_from (cur : option string) (s : string) : list string :=
  match s with
  | "" => match cur with Some w => [w] | None => [] end
  | String c rest =>
      if is_name_char c
      then words_from (Some (default "" cur +:+ String c "")) rest
      else match cur with
           | Some w => w :: words_from None rest
           | None => words_from None rest
           end
  end.

Definition words : string -> list string := words_from None.

(** Whether the word [a] is directly followed by the word [b]. *)
Fixpoint adjacent (a b : string) (ws : list string) : bool :=
  match ws with
  | x :: rest =>
      match rest with
      | y :: _ => (String.eqb x a && String.eqb y b) || adjacent a b rest
      | [] => false
      end
  | [] => false
  end.

(** One column of a [CREATE TABLE]: its name and type, and whether it is
    declared [NOT NULL], has a [DEFAULT], is [AUTOINCREMENT]. *)
Record column_definition : Type := mkColumn {
  column_name : string;
  column_type : string;
  column_not_null : bool;
  column_default : bool;
  column_autoincrement : bool
}.

(** An item of the column list: a column definition, unless it starts with
    the keyword of a table constraint. *)
Definition read_column (item : string) : option column_definition :=
  match words item with
  | n :: ty :: attributes =>
      if existsb (String.eqb n)
           ["PRIMARY"; "UNIQUE"; "CHECK"; "FOREIGN"; "CONSTRAINT"]
      then None
      else Some (mkColumn n ty
                   (adjacent "NOT" "NULL" attributes)
                   (existsb (String.eqb "DEFAULT") attributes)
                   (existsb (String.eqb "AUTOINCREMENT") attributes))
  | _ => None
  end.

Definition column_definitions (c : create_table) : list column_definition :=
  omap read_column (split_commas (create_body c)).

(** The columns an [INSERT] has to give a value for: those declared
    [NOT NULL] that have neither a [DEFAULT] nor [AUTOINCREMENT]. *)
Definition required_columns (c : create_table) : list string :=
  column_name <$>
    List.filter (fun d => column_not_null d && negb (column_default d) &&
                          negb (column_autoincrement d))
      (column_definitions c).

(** ** Publishing a batch and fetching it back *)

(** The rows that the store hands back for the values bound for a batch:
    three values per row, the rows numbered from [offset] on. *)
Fixpoint stored_rows (offset : Z) (args : list any) : option (list sql_Row) :=
  match args with
  | [] => Some []
  | uuid :: payload :: metadata :: rest =>
      row ← stored_row offset [uuid; payload; metadata];
      rows ← stored_rows (offset + 1) rest;
      Some (row :: rows)
  | _ => None
  end.

(** The messages of the rows as [UnmarshalMessage] decodes them, when it
    decodes them all. *)
Fixpoint decode_rows (s : DefaultSQLiteSchema.t) (rows : list sql_Row)
    : option (list Message) :=
  match rows with
  | [] => Some []
  | row :: rest =>
      match DefaultSQLiteSchema.UnmarshalMessage json.Unmarshal s row with
      | (r, None) =>
          msg ← Row_Msg r;
          msgs ← decode_rows s rest;
          Some (msg :: msgs)
      | (_, Some _) => None
      end
  end.

(** A batch encoded by [InsertQuery], stored, and decoded row by row by
    [UnmarshalMessage]. *)
Definition round_trip_batch (s : DefaultSQLiteSchema.t) (topic : string)
    (offset : Z) (msgs : list Message) : option (list Message) :=
  match DefaultSQLiteSchema.InsertQuery json.Marshal s topic msgs with
  | (q, None) => stored_rows offset (Query_Args q) ≫= decode_rows s
  | (_, Some _) => None
  end.

(** * Proofs *)

(** ** The statements for the topic [orders] and the group [billing]

    The texts are those of the Go literals, with the default table names. *)

Example NextOffsetQuery_orders :
  DefaultSQLiteOffsetsAdapter.NextOffsetQuery
    (DefaultSQLiteOffsetsAdapter.mk None) "orders" "billing"
  = mkQuery "SELECT COALESCE(
				(SELECT offset_acked
				 FROM `watermill_offsets_orders`
				 WHERE consumer_group=? FOR UPDATE
				), 0)" [any_string "billing"].
Proof. reflexivity. Qed.

Example AckMessageQuery_orders :
  DefaultSQLiteOffsetsAdapter.AckMessageQuery
    (DefaultSQLiteOffsetsAdapter.mk None) "orders"
    (mkRow 3 None None None None) "billing"
  = mkQuery "INSERT INTO `watermill_offsets_orders` (offset_consumed, offset_acked, consumer_group)
		VALUES (?, ?, ?) ON DUPLICATE KEY UPDATE offset_consumed=VALUES(offset_consumed), offset_acked=VALUES(offset_acked)" [any_int64 3; any_int64 3; any_string "billing"].
Proof. reflexivity. Qed.

Example ConsumedMessageQuery_orders :
  DefaultSQLiteOffsetsAdapter.ConsumedMessageQuery
    (DefaultSQLiteOffsetsAdapter.mk None) "orders"
    (mkRow 3 None None None None) "billing" None
  = mkQuery "INSERT INTO `watermill_offsets_orders` (offset_consumed, consumer_group)
		VALUES (?, ?) ON DUPLICATE KEY UPDATE offset_consumed=VALUES(offset_consumed)" [any_int64 3; any_string "billing"].
Proof. reflexivity. Qed.

Example offsets_SchemaInitializingQueries_orders :
  DefaultSQLiteOffsetsAdapter.SchemaInitializingQueries
    (DefaultSQLiteOffsetsAdapter.mk None) "orders"
  = [mkQuery "
				CREATE TABLE IF NOT EXISTS `watermill_offsets_orders` (
				consumer_group TEXT NOT NULL,
				offset_acked INTEGER,
				offset_consumed INTEGER NOT NULL,
				PRIMARY KEY(consumer_group)
			)" []].
Proof. reflexivity. Qed.

Example SchemaInitializingQueries_orders :
  DefaultSQLiteSchema.SchemaInitializingQueries
    (DefaultSQLiteSchema.mk None 0) "orders"
  = [mkQuery "CREATE TABLE IF NOT EXISTS `watermill_orders` (
`offset` INTEGER NOT NULL AUTOINCREMENT PRIMARY KEY,
`uuid` TEXT NOT NULL,
`created_at` TEXT NOT NULL,
`payload` BLOB DEFAULT NULL,
`metadata` BLOB DEFAULT NULL
);" []].
Proof. reflexivity. Qed.

Example SelectQuery_orders :
  DefaultSQLiteSchema.SelectQuery (DefaultSQLiteSchema.mk None 0)
    "orders" "billing" (DefaultSQLiteOffsetsAdapter.mk None)
  = mkQuery "
		SELECT offset, uuid, payload, metadata FROM `watermill_orders`
		WHERE 
			offset > (SELECT COALESCE(
				(SELECT offset_acked
				 FROM `watermill_offsets_orders`
				 WHERE consumer_group=? FOR UPDATE
				), 0))
		ORDER BY 
			offset ASC
		LIMIT 100" [any_string "billing"].
Proof. reflexivity. Qed.

(** Two messages, the first with the metadata [{k: v}] and the second with
    a nil metadata map; [json.Marshal] writes them as an object and as
    [null]. *)
Example InsertQuery_orders :
  DefaultSQLiteSchema.InsertQuery json.Marshal (DefaultSQLiteSchema.mk None 0)
    "orders"
    [ mkMessage "1" (Some {["k" := "v"]}) (bytes_of_string "hello");
      mkMessage "2" None None ]
  = (mkQuery "INSERT INTO `watermill_orders` (uuid, payload, metadata) VALUES (?,?,?),(?,?,?)"
       [ any_string "1"; any_string "hello";
         any_string
           (string_of_list_ascii
              ["{"; json.quote; "k"; json.quote; ":"; json.quote; "v";
               json.quote; "}"]%char);
         any_string "2"; any_string ""; any_string "null" ],
     None).
Proof. vm_compute. reflexivity. Qed.

(** A marshal function that fails on a nil map, to see the error of
    [InsertQuery]: the second message is the one it names. *)
Example InsertQuery_error :
  DefaultSQLiteSchema.InsertQuery
    (fun v => match v with
              | None => inr (errors_New "nil map")
              | Some _ => json.Marshal v
              end)
    (DefaultSQLiteSchema.mk None 0) "orders"
    [ mkMessage "1" (Some {["k" := "v"]}) (bytes_of_string "hello");
      mkMessage "2" None None;
      mkMessage "3" None None ]
  = (Query_zero,
     Some (errors_Wrap (errors_New "nil map")
             "could not marshal metadata into JSON for message 2")).
Proof. vm_compute. reflexivity. Qed.

(** ** Reading past a literal *)

Lemma append_assoc (a b c : string) : (a +:+ b) +:+ c = a +:+ b +:+ c.
Proof. induction a as [|x a IH]; simpl; [done|]. by rewrite IH. Qed.

Lemma strip_prefix_app p s : strip_prefix p (p +:+ s) = Some s.
Proof.
  induction p as [|c p IH]; simpl; [done|].
  by rewrite Ascii.eqb_refl.
Qed.

Lemma bind_lit_app {B : Type} p (k : unit -> reader B) s :
  bind (lit p) k (p +:+ s) = k tt s.
Proof. unfold bind, lit. by rewrite strip_prefix_app. Qed.

(** [%d] prints what [integer_to_end] reads back. *)
Lemma integer_to_end_Sprintf_d n :
  integer_to_end (fmt.Sprintf_d n) = Some (n, "").
Proof.
  unfold integer_to_end, fmt.Sprintf_d.
  rewrite NilZero.isi.
  - by rewrite DecimalZ.of_to.
  - destruct n as [|p|p]; simpl; try discriminate.
    intros [=E]. by apply DecimalPos.Unsigned.to_uint_nonnil in E.
  - destruct n as [|p|p]; simpl; try discriminate.
    intros [=E]. by apply DecimalPos.Unsigned.to_uint_nonnil in E.
Qed.

Lemma bind_integer_to_end {B : Type} (k : Z -> reader B) n :
  bind integer_to_end k (fmt.Sprintf_d n) = k n "".
Proof. unfold bind. by rewrite integer_to_end_Sprintf_d. Qed.

Local Arguments fmt.Sprintf_d : simpl never.
Local Arguments DefaultSQLiteSchema.batchSize : simpl never.

(** Runs a reader over a statement: the literal text is consumed by
    computation, a table name, a subquery or a printed number by the lemmas
    above. *)
Ltac read_statement :=
  unfold reads, LF, TAB; cbn; rewrite ?append_assoc;
  repeat (first [rewrite bind_lit_app | rewrite bind_integer_to_end]; cbn).

(** ** The statements of the offsets adapter *)




(** ** The fetch statement *)

Lemma SelectQuery_reads {A : Type} `{OffsetsAdapter A}
    (s : DefaultSQLiteSchema.t) topic consumerGroup (offsetsAdapter : A) :
  reads (read_select (DefaultSQLiteSchema.MessagesTable s topic)
           (Query_Query (NextOffsetQuery offsetsAdapter topic consumerGroup)))
        (DefaultSQLiteSchema.SelectQuery s topic consumerGroup offsetsAdapter)
  = Some (mkSelect ["offset"; "uuid"; "payload"; "metadata"]
            "offset" true "offset" true (DefaultSQLiteSchema.batchSize s)).
Proof.
  unfold DefaultSQLiteSchema.SelectQuery. read_statement. reflexivity.
Qed.


(** C7: for every topic, the [LIMIT] of the fetch statement is the
    configured [SubscribeBatchSize], and 100 when that is zero. *)
Theorem SelectQuery_limit_is_batch_size {A : Type} `{OffsetsAdapter A}
    (s : DefaultSQLiteSchema.t) (topic consumerGroup : string)
    (offsetsAdapter : A) :
  select_limit <$>
    reads (read_select (DefaultSQLiteSchema.MessagesTable s topic)
             (Query_Query (NextOffsetQuery offsetsAdapter topic consumerGroup)))
          (DefaultSQLiteSchema.SelectQuery s topic consumerGroup offsetsAdapter)
  = Some (if decide (DefaultSQLiteSchema.SubscribeBatchSize s = 0) then 100
          else DefaultSQLiteSchema.SubscribeBatchSize s).
Proof.
  rewrite SelectQuery_reads. simpl. f_equal.
  unfold DefaultSQLiteSchema.batchSize.
  destruct (Z.eqb_spec (DefaultSQLiteSchema.SubscribeBatchSize s) 0);
    by case_decide.
Qed.

(** ** Schema initialization *)

Lemma messages_schema_reads s topic :
  exists q body,
    DefaultSQLiteSchema.SchemaInitializingQueries s topic = [q] /\
    Query_Args q = [] /\
    reads (read_create (DefaultSQLiteSchema.MessagesTable s topic)) q
    = Some (mkCreate true body) /\
    column_list_error body = Some "AUTOINCREMENT".
Proof.
  eexists _, _. split; [reflexivity|]. split; [reflexivity|].
  split; [read_statement; reflexivity|]. vm_compute. reflexivity.
Qed.

Lemma offsets_schema_reads a topic :
  exists q body,
    DefaultSQLiteOffsetsAdapter.SchemaInitializingQueries a topic = [q] /\
    Query_Args q = [] /\
    reads (read_create (DefaultSQLiteOffsetsAdapter.MessagesOffsetsTable a topic)) q
    = Some (mkCreate true body) /\
    column_list_error body = None.
Proof.
  eexists _, _. split; [reflexivity|]. split; [reflexivity|].
  split; [read_statement; reflexivity|]. vm_compute. reflexivity.
Qed.

(** What running a single guarded [CREATE TABLE] with a well-formed column
    list does. *)
Lemma run_guarded_create table q body db :
  reads (read_create table) q = Some (mkCreate true body) ->
  column_list_error body = None ->
  (is_Some (db !! table) -> run_schema table [q] db = inl db) /\
  exists db',
    run_schema table [q] db = inl db' /\ db ⊆ db' /\
    run_schema table [q] db' = inl db'.
Proof.
  intros Hq Hbody. unfold run_schema, run_create. rewrite Hq. simpl.
  rewrite Hbody.
  destruct (db !! table) as [t|] eqn:Ht.
  - split; [done|]. exists db. by rewrite Ht.
  - split; [by intros [??]|].
    eexists. split; [reflexivity|]. split; [by apply insert_subseteq|].
    by rewrite lookup_insert_eq.
Qed.

(** C8, where the code fails it: for every topic, the schema
    initialization of the messages adapter is one statement without
    arguments that reads as [CREATE TABLE IF NOT EXISTS] of the topic's table,
    but in its column list [AUTOINCREMENT] stands before [PRIMARY KEY], after
    [NOT NULL], where no column constraint starts with it: run on any store,
    one that has the table or one that has not, the statement is the syntax
    error near [AUTOINCREMENT], where the claim has it run without error. *)
Theorem SchemaInitializingQueries_messages_syntax_error
    (s : DefaultSQLiteSchema.t) (topic : string) :
  (exists q,
     DefaultSQLiteSchema.SchemaInitializingQueries s topic = [q] /\
     Query_Args q = [] /\
     create_if_not_exists <$>
       reads (read_create (DefaultSQLiteSchema.MessagesTable s topic)) q
     = Some true /\
     column_list_error <$>
       (create_body <$>
          reads (read_create (DefaultSQLiteSchema.MessagesTable s topic)) q)
     = Some (Some "AUTOINCREMENT")) /\
  forall db : gmap string stored_table,
    run_schema (DefaultSQLiteSchema.MessagesTable s topic)
      (DefaultSQLiteSchema.SchemaInitializingQueries s topic) db
    = inr (syntax_error "AUTOINCREMENT").
Proof.
  destruct (messages_schema_reads s topic) as (q & body & -> & Hargs & Hq & Hbody).
  split.
  - exists q. rewrite Hq. simpl. by rewrite Hbody.
  - intros db. unfold run_schema, run_create. rewrite Hq. simpl.
    by rewrite Hbody.
Qed.

(** The failing run at the topic [orders], on a store that has the table
    already. *)
Example SchemaInitializingQueries_orders_syntax_error :
  run_schema "`watermill_orders`"
    (DefaultSQLiteSchema.SchemaInitializingQueries
       (DefaultSQLiteSchema.mk None 0) "orders")
    {["`watermill_orders`" := mkTable "" []]}
  = inr (syntax_error "AUTOINCREMENT").
Proof. vm_compute. reflexivity. Qed.

(** X25: for every topic, the schema initialization of the offsets adapter
    is one [CREATE TABLE IF NOT EXISTS] statement for the topic's offsets
    table, without arguments and with a well-formed column list: run on a
    store that has the table it gives no error and leaves the store as it is,
    and run on any store it gives no error, keeps what the store holds, and
    running it a second time changes nothing. *)
Theorem offsets_SchemaInitializingQueries_create_if_not_exists
    (a : DefaultSQLiteOffsetsAdapter.t) (topic : string) :
  create_if_not_exists_schema
    (DefaultSQLiteOffsetsAdapter.MessagesOffsetsTable a topic)
    (DefaultSQLiteOffsetsAdapter.SchemaInitializingQueries a topic).
Proof.
  destruct (offsets_schema_reads a topic)
    as (q & body & -> & Hargs & Hq & Hbody).
  split; [exists q; by rewrite Hq|].
  split; intros db; by destruct (run_guarded_create _ q body db Hq Hbody).
Qed.

(** ** The batch insert *)

(** The placeholders of [n] messages: trimming the last comma of the
    repeated tuple leaves the tuples joined by commas. *)
Lemma TrimRight_Repeat n :
  strings.TrimRight (strings.Repeat "(?,?,?)," n) ","
  = strings.Join (replicate n "(?,?,?)") ",".
Proof.
  induction n as [|n IH]; [done|].
  change (strings.Repeat "(?,?,?)," (S n))
    with ("(?,?,?)," +:+ strings.Repeat "(?,?,?)," n).
  destruct n as [|n]; [done|].
  remember (strings.Repeat "(?,?,?)," (S n)) as rest.
  remember (replicate (S n) "(?,?,?)") as parts.
  simpl. rewrite IH. subst parts. simpl replicate.
  remember (strings.Join ("(?,?,?)" :: replicate n "(?,?,?)") ",") as joined eqn:Hj.
  assert (exists c tl, joined = String c tl) as (c & tl & ->).
  { subst joined. destruct (replicate n "(?,?,?)"); simpl; eauto. }
  rewrite Hj. destruct (replicate n "(?,?,?)"); reflexivity.
Qed.

Lemma tuples_from_Join n : forall acc,
  tuples_from None acc (strings.Join (replicate n "(?,?,?)") ",")
  = Some (acc ++ replicate n 3%nat, "").
Proof.
  induction n as [|n IH]; intros acc; [by rewrite app_nil_r|].
  destruct n as [|n]; [done|].
  change (strings.Join (replicate (S (S n)) "(?,?,?)") ",")
    with ("(?,?,?)" +:+ "," +:+ strings.Join (replicate (S n) "(?,?,?)") ",").
  remember (strings.Join (replicate (S n) "(?,?,?)") ",") as rest.
  simpl. subst rest. rewrite IH, <- app_assoc. done.
Qed.

Lemma InsertQuery_text_reads s topic (n : nat) args :
  reads (read_insert (DefaultSQLiteSchema.MessagesTable s topic))
    (mkQuery ("INSERT INTO " +:+ DefaultSQLiteSchema.MessagesTable s topic +:+
              " (uuid, payload, metadata) VALUES " +:+
              strings.TrimRight (strings.Repeat "(?,?,?)," n) ",") args)
  = Some (mkInsert ["uuid"; "payload"; "metadata"] (replicate n 3%nat) []).
Proof.
  rewrite TrimRight_Repeat.
  remember (strings.Join (replicate n "(?,?,?)") ",") as rows eqn:Hrows.
  read_statement. unfold tuples, bind. cbn.
  subst rows. rewrite tuples_from_Join. reflexivity.
Qed.

Section InsertQuery.

Variable json_Marshal : Metadata -> list ascii + error.

Lemma InsertQuery_loop_ok msgs : forall encoded args,
  Forall2 (fun msg metadata => json_Marshal (Message_Metadata msg) = inl metadata)
    msgs encoded ->
  DefaultSQLiteSchema.InsertQuery_loop json_Marshal msgs args
  = inl (args ++ concat (zip_with bound_values msgs encoded)).
Proof.
  induction msgs as [|msg msgs IH]; intros encoded args Henc.
  - apply Forall2_nil_inv_l in Henc as ->. simpl. by rewrite app_nil_r.
  - apply Forall2_cons_inv_l in Henc as (metadata & encoded' & Hm & Henc & ->).
    simpl. rewrite Hm, (IH encoded') by done. by rewrite <- app_assoc.
Qed.



End InsertQuery.

(** ** Decoding a row *)

Section UnmarshalMessage.

Variable json_Unmarshal : list ascii -> Metadata -> Metadata + error.
Context {S : Type} `{Scanner S}.

(** C10: for every row that scans with a nil metadata blob, whatever
    [json.Unmarshal] does, [UnmarshalMessage] returns no error and the
    scanned row with a message whose uuid and payload are the scanned ones
    and whose metadata is the empty map. *)
Theorem UnmarshalMessage_null_metadata (s : DefaultSQLiteSchema.t) (row : S)
    (offset : Z) (uuid payload : bytes) :
  Scan row = inl (offset, uuid, payload, None) ->
  DefaultSQLiteSchema.UnmarshalMessage json_Unmarshal s row
  = (mkRow offset uuid payload None
       (Some (mkMessage (string_of_bytes uuid) (Some ∅) payload)),
     None).
Proof.
  intros Hscan. unfold DefaultSQLiteSchema.UnmarshalMessage. by rewrite Hscan.
Qed.

(** C9: for every row that scans with a metadata blob that is not nil and
    on which [json.Unmarshal] fails, [UnmarshalMessage] returns the zero row
    and the decode error, wrapped; and in a batch decoded row by row, the
    rows before and after it are decoded as they are on their own. *)
Theorem UnmarshalMessage_decode_error (s : DefaultSQLiteSchema.t) (row : S)
    (offset : Z) (uuid payload : bytes) (data : list ascii) (err : error) :
  Scan row = inl (offset, uuid, payload, Some data) ->
  json_Unmarshal data (Some ∅) = inr err ->
  let failure :=
    (Row_zero, Some (errors_Wrap err "could not unmarshal metadata as JSON")) in
  DefaultSQLiteSchema.UnmarshalMessage json_Unmarshal s row = failure /\
  forall before after : list S,
    DefaultSQLiteSchema.UnmarshalMessage json_Unmarshal s <$>
      (before ++ row :: after)
    = (DefaultSQLiteSchema.UnmarshalMessage json_Unmarshal s <$> before) ++
      failure ::
      (DefaultSQLiteSchema.UnmarshalMessage json_Unmarshal s <$> after).
Proof.
  intros Hscan Herr failure.
  assert (DefaultSQLiteSchema.UnmarshalMessage json_Unmarshal s row = failure)
    as Hrow.
  { unfold DefaultSQLiteSchema.UnmarshalMessage. rewrite Hscan. simpl.
    by rewrite Herr. }
  split; [done|]. intros before after.
  by rewrite fmap_app, fmap_cons, Hrow.
Qed.

End UnmarshalMessage.

Import utf8 json.

(** ** Bytes and bit fields *)

Lemma byte_range c : 0 <= byte c < 256.
Proof.
  unfold byte. pose proof (N_ascii_bounded c) as Hb. lia.
Qed.

Lemma to_byte_byte c : to_byte (byte c) = c.
Proof.
  unfold to_byte. pose proof (byte_range c) as Hb.
  rewrite Z.mod_small by lia. unfold byte.
  rewrite N2Z.id. apply ascii_N_embedding.
Qed.

(** The bits of [l] lie below those of [h]: [lor] adds them up. *)
Lemma lor_add h l n :
  0 <= n -> 0 <= l < 2 ^ n -> h mod 2 ^ n = 0 -> Z.lor h l = h + l.
Proof.
  intros Hn Hl Hh.
  assert (Z.land h l = 0) as Hland.
  { apply Z.bits_inj'. intros k Hk.
    rewrite Z.land_spec, Z.bits_0.
    destruct (Z.lt_ge_cases k n) as [Hlt|Hge].
    - rewrite (Z.div_mod h (2 ^ n)) by lia. rewrite Hh, Z.add_0_r.
      rewrite Z.mul_comm, Z.mul_pow2_bits_low by lia. done.
    - destruct (Z.eq_dec l 0) as [->|Hne].
      + rewrite Z.bits_0. apply andb_false_r.
      + rewrite (Z.bits_above_log2 l k), andb_false_r; [done|lia|].
        apply Z.log2_lt_pow2; [lia|].
        eapply Z.lt_le_trans; [apply Hl|]. apply Z.pow_le_mono_r; lia. }
  pose proof (Z.add_lor_land h l). lia.
Qed.

Lemma lor_add_below p h l n :
  p = 2 ^ n -> 0 <= n -> 0 <= l < p -> h mod p = 0 -> Z.lor h l = h + l.
Proof. intros ->. apply lor_add. Qed.

Ltac zlia := Z.div_mod_to_equations; lia.

Ltac lor_to_add l n :=
  rewrite (lor_add_below (2 ^ n) _ l n) by (first [reflexivity | zlia]).

Ltac to_arith :=
  change 0x3F with (Z.ones 6) in *; change 0x1F with (Z.ones 5) in *;
  change 0x0F with (Z.ones 4) in *; change 0x07 with (Z.ones 3) in *;
  rewrite ?Z.land_ones in * by lia;
  rewrite ?Z.shiftl_mul_pow2, ?Z.shiftr_div_pow2 in * by lia;
  change (2 ^ 3) with 8 in *; change (2 ^ 4) with 16 in *;
  change (2 ^ 5) with 32 in *; change (2 ^ 6) with 64 in *;
  change (2 ^ 12) with 4096 in *; change (2 ^ 18) with 262144 in *.

Lemma rune2 x0 x1 :
  0xC2 <= x0 < 0xE0 -> 0x80 <= x1 <= 0xBF ->
  Z.lor (Z.shiftl (Z.land x0 0x1F) 6) (Z.land x1 0x3F)
  = (x0 - 0xC0) * 64 + (x1 - 0x80).
Proof.
  intros H0 H1. to_arith.
  lor_to_add (x1 mod 64) 6. zlia.
Qed.

Lemma rune3 x0 x1 x2 :
  0xE0 <= x0 < 0xF0 -> 0x80 <= x1 <= 0xBF -> 0x80 <= x2 <= 0xBF ->
  Z.lor (Z.lor (Z.shiftl (Z.land x0 0x0F) 12) (Z.shiftl (Z.land x1 0x3F) 6))
        (Z.land x2 0x3F)
  = ((x0 - 0xE0) * 64 + (x1 - 0x80)) * 64 + (x2 - 0x80).
Proof.
  intros H0 H1 H2. to_arith.
  lor_to_add (x1 mod 64 * 64) 12.
  lor_to_add (x2 mod 64) 6. zlia.
Qed.

Lemma rune4 x0 x1 x2 x3 :
  0xF0 <= x0 < 0xF5 -> 0x80 <= x1 <= 0xBF -> 0x80 <= x2 <= 0xBF ->
  0x80 <= x3 <= 0xBF ->
  Z.lor (Z.lor (Z.lor (Z.shiftl (Z.land x0 0x07) 18)
                      (Z.shiftl (Z.land x1 0x3F) 12))
               (Z.shiftl (Z.land x2 0x3F) 6))
        (Z.land x3 0x3F)
  = (((x0 - 0xF0) * 64 + (x1 - 0x80)) * 64 + (x2 - 0x80)) * 64 + (x3 - 0x80).
Proof.
  intros H0 H1 H2 H3. to_arith.
  lor_to_add (x1 mod 64 * 4096) 18.
  lor_to_add (x2 mod 64 * 64) 12.
  lor_to_add (x3 mod 64) 6. zlia.
Qed.

Ltac zbool :=
  rewrite ?andb_true_iff, ?andb_false_iff, ?orb_true_iff, ?orb_false_iff,
    ?negb_true_iff, ?negb_false_iff,
    ?Z.leb_le, ?Z.leb_gt, ?Z.ltb_lt, ?Z.ltb_ge, ?Z.eqb_eq, ?Z.eqb_neq,
    ?Nat.eqb_eq, ?Nat.eqb_neq;
  zlia.

(** ** [EncodeRune] writes back what [DecodeRune] read *)

Lemma EncodeRune2 x0 x1 :
  0xC2 <= x0 < 0xE0 -> 0x80 <= x1 <= 0xBF ->
  EncodeRune ((x0 - 0xC0) * 64 + (x1 - 0x80)) = [to_byte x0; to_byte x1].
Proof.
  intros H0 H1. unfold EncodeRune.
  set (r := (x0 - 0xC0) * 64 + (x1 - 0x80)).
  assert (0x80 <= r <= 0x7FF) as Hr by (unfold r; lia).
  replace ((0 <=? r) && (r <=? 0x7F)) with false by (symmetry; zbool).
  replace ((0 <=? r) && (r <=? 0x7FF)) with true by (symmetry; zbool).
  to_arith.
  lor_to_add (r / 64) 6. lor_to_add (r mod 64) 6.
  do 2 f_equal; [|f_equal]; unfold r; zlia.
Qed.

Lemma EncodeRune3 x0 x1 x2 :
  0xE0 <= x0 < 0xF0 -> 0x80 <= x1 <= 0xBF -> 0x80 <= x2 <= 0xBF ->
  (x0 = 0xE0 -> 0xA0 <= x1) -> (x0 = 0xED -> x1 <= 0x9F) ->
  EncodeRune (((x0 - 0xE0) * 64 + (x1 - 0x80)) * 64 + (x2 - 0x80))
  = [to_byte x0; to_byte x1; to_byte x2].
Proof.
  intros H0 H1 H2 Hlo Hhi. unfold EncodeRune.
  set (r := ((x0 - 0xE0) * 64 + (x1 - 0x80)) * 64 + (x2 - 0x80)).
  assert (0x800 <= r <= 0xFFFF /\ ~ (0xD800 <= r <= 0xDFFF)) as Hr
    by (unfold r; lia).
  replace ((0 <=? r) && (r <=? 0x7F)) with false by (symmetry; zbool).
  replace ((0 <=? r) && (r <=? 0x7FF)) with false by (symmetry; zbool).
  replace ((r <? 0) || (MaxRune <? r) || (0xD800 <=? r) && (r <=? 0xDFFF))
    with false by (symmetry; unfold MaxRune; zbool).
  replace (r <=? 0xFFFF) with true by (symmetry; zbool).
  to_arith.
  lor_to_add (r / 4096) 5. lor_to_add (r / 64 mod 64) 6. lor_to_add (r mod 64) 6.
  repeat f_equal; unfold r; zlia.
Qed.

Lemma EncodeRune4 x0 x1 x2 x3 :
  0xF0 <= x0 < 0xF5 -> 0x80 <= x1 <= 0xBF -> 0x80 <= x2 <= 0xBF ->
  0x80 <= x3 <= 0xBF ->
  (x0 = 0xF0 -> 0x90 <= x1) -> (x0 = 0xF4 -> x1 <= 0x8F) ->
  EncodeRune ((((x0 - 0xF0) * 64 + (x1 - 0x80)) * 64 + (x2 - 0x80)) * 64
              + (x3 - 0x80))
  = [to_byte x0; to_byte x1; to_byte x2; to_byte x3].
Proof.
  intros H0 H1 H2 H3 Hlo Hhi. unfold EncodeRune.
  set (r := (((x0 - 0xF0) * 64 + (x1 - 0x80)) * 64 + (x2 - 0x80)) * 64
            + (x3 - 0x80)).
  assert (0x10000 <= r <= 0x10FFFF) as Hr by (unfold r; lia).
  replace ((0 <=? r) && (r <=? 0x7F)) with false by (symmetry; zbool).
  replace ((0 <=? r) && (r <=? 0x7FF)) with false by (symmetry; zbool).
  replace ((r <? 0) || (MaxRune <? r) || (0xD800 <=? r) && (r <=? 0xDFFF))
    with false by (symmetry; unfold MaxRune; zbool).
  replace (r <=? 0xFFFF) with false by (symmetry; zbool).
  to_arith.
  lor_to_add (r / 262144) 4. lor_to_add (r / 4096 mod 64) 6.
  lor_to_add (r / 64 mod 64) 6. lor_to_add (r mod 64) 6.
  repeat f_equal; unfold r; zlia.
Qed.

Lemma between_spec lo hi c : between lo hi c = true <-> lo <= byte c <= hi.
Proof. unfold between. rewrite andb_true_iff, !Z.leb_le. tauto. Qed.

Lemma DecodeRune_cases b rest r n :
  0x80 <= byte b ->
  DecodeRune (b :: rest) = (r, n) ->
  (r = RuneError /\ n = 1%nat) \/
  exists bs rest', b :: rest = bs ++ rest' /\ length bs = n /\ multibyte bs r.
Proof.
  intros Hb. unfold DecodeRune.
  pose proof (byte_range b) as Rb.
  destruct (Z.ltb_spec (byte b) 0x80) as [?|_]; [lia|].
  destruct (Z.ltb_spec (byte b) 0xC2) as [?|H0]; [intros [= <- <-]; by left|].
  destruct (Z.ltb_spec (byte b) 0xE0) as [H1|H1].
  { destruct rest as [|b1 rest]; [intros [= <- <-]; by left|].
    destruct (between 0x80 0xBF b1) eqn:E1; [|intros [= <- <-]; by left].
    apply between_spec in E1. intros [= <- <-]. right.
    exists [b; b1], rest. split; [done|]. split; [done|].
    rewrite rune2 by lia.
    split; [simpl; lia|]. split; [repeat constructor; lia|].
    split; [by rewrite EncodeRune2, !to_byte_byte by lia|].
    split; [lia|]. intros t. simpl.
    destruct (Z.ltb_spec (byte b) 0x80); [lia|].
    destruct (Z.ltb_spec (byte b) 0xC2); [lia|].
    destruct (Z.ltb_spec (byte b) 0xE0); [|lia].
    assert (between 0x80 0xBF b1 = true) as -> by by apply between_spec.
    by rewrite rune2 by lia. }
  destruct (Z.ltb_spec (byte b) 0xF0) as [H2|H2].
  { destruct rest as [|b1 [|b2 rest]]; try (intros [= <- <-]; by left).
    set (lo := if byte b =? 0xE0 then 0xA0 else 0x80).
    set (hi := if byte b =? 0xED then 0x9F else 0xBF).
    destruct (between lo hi b1 && between 0x80 0xBF b2) eqn:E;
      [|intros [= <- <-]; by left].
    apply andb_true_iff in E as [E1 E2].
    apply between_spec in E1, E2.
    assert (0x80 <= byte b1 <= 0xBF /\ (byte b = 0xE0 -> 0xA0 <= byte b1) /\
            (byte b = 0xED -> byte b1 <= 0x9F)) as (R1 & Rlo & Rhi).
    { unfold lo, hi in E1.
      destruct (Z.eqb_spec (byte b) 0xE0), (Z.eqb_spec (byte b) 0xED); lia. }
    intros [= <- <-]. right.
    exists [b; b1; b2], rest. split; [done|]. split; [done|].
    rewrite rune3 by lia.
    split; [simpl; lia|]. split; [repeat constructor; lia|].
    split; [by rewrite EncodeRune3, !to_byte_byte by lia|].
    split; [lia|]. intros t. simpl.
    destruct (Z.ltb_spec (byte b) 0x80); [lia|].
    destruct (Z.ltb_spec (byte b) 0xC2); [lia|].
    destruct (Z.ltb_spec (byte b) 0xE0); [lia|].
    destruct (Z.ltb_spec (byte b) 0xF0); [|lia].
    fold lo hi.
    assert (between lo hi b1 && between 0x80 0xBF b2 = true) as ->
      by (apply andb_true_iff; split; by apply between_spec).
    by rewrite rune3 by lia. }
  destruct (Z.ltb_spec (byte b) 0xF5) as [H3|H3]; [|intros [= <- <-]; by left].
  destruct rest as [|b1 [|b2 [|b3 rest]]]; try (intros [= <- <-]; by left).
  set (lo := if byte b =? 0xF0 then 0x90 else 0x80).
  set (hi := if byte b =? 0xF4 then 0x8F else 0xBF).
  destruct (between lo hi b1 && between 0x80 0xBF b2 && between 0x80 0xBF b3)
    eqn:E; [|intros [= <- <-]; by left].
  apply andb_true_iff in E as [E E3]. apply andb_true_iff in E as [E1 E2].
  apply between_spec in E1, E2, E3.
  assert (0x80 <= byte b1 <= 0xBF /\ (byte b = 0xF0 -> 0x90 <= byte b1) /\
          (byte b = 0xF4 -> byte b1 <= 0x8F)) as (R1 & Rlo & Rhi).
  { unfold lo, hi in E1.
    destruct (Z.eqb_spec (byte b) 0xF0), (Z.eqb_spec (byte b) 0xF4); lia. }
  intros [= <- <-]. right.
  exists [b; b1; b2; b3], rest. split; [done|]. split; [done|].
  rewrite rune4 by lia.
  split; [simpl; lia|]. split; [repeat constructor; lia|].
  split; [by rewrite EncodeRune4, !to_byte_byte by lia|].
  split; [lia|]. intros t. simpl.
  destruct (Z.ltb_spec (byte b) 0x80); [lia|].
  destruct (Z.ltb_spec (byte b) 0xC2); [lia|].
  destruct (Z.ltb_spec (byte b) 0xE0); [lia|].
  destruct (Z.ltb_spec (byte b) 0xF0); [lia|].
  destruct (Z.ltb_spec (byte b) 0xF5); [|lia].
  fold lo hi.
  assert (between lo hi b1 && between 0x80 0xBF b2 && between 0x80 0xBF b3 = true)
    as -> by (rewrite !andb_true_iff; repeat split; by apply between_spec).
  by rewrite rune4 by lia.
Qed.

(** ** One step of the loops over a string *)

Lemma appendString_from_copy k l :
  (k <= length l)%nat ->
  appendString_from k l = take k l ++ appendString_from 0 (drop k l).
Proof.
  revert l. induction k as [|k IH]; intros l Hl; [done|].
  destruct l as [|b l]; [simpl in Hl; lia|].
  simpl in *. f_equal. apply IH. lia.
Qed.

Lemma unquote_from_drop k l : unquote_from k l = unquote_from 0 (drop k l).
Proof.
  revert l. induction k as [|k IH]; intros l; [done|].
  destruct l as [|b l]; [done|]. simpl. apply IH.
Qed.

Lemma Valid_from_drop k l : Valid_from k l = Valid_from 0 (drop k l).
Proof.
  revert l. induction k as [|k IH]; intros l; [done|].
  destruct l as [|b l]; [done|]. simpl. apply IH.
Qed.

Lemma prepend_app c1 c2 r : prepend (c1 ++ c2) r = prepend c1 (prepend c2 r).
Proof. destruct r as [[??]|]; simpl; [|done]. by rewrite app_assoc. Qed.

Lemma appendString_from_ascii b rest :
  byte b < 0x80 ->
  appendString_from 0 (b :: rest) = ascii_out b ++ appendString_from 0 rest.
Proof.
  intros Hb. simpl. destruct (Z.ltb_spec (byte b) 0x80); [done|lia].
Qed.

Lemma scan_string_ascii b t :
  byte b < 0x80 -> scan_string (ascii_out b ++ t) = prepend (ascii_out b) (scan_string t).
Proof.
  destruct b as [[] [] [] [] [] [] [] []]; intros Hb;
    first [ by (exfalso; cbv in Hb)
          | by (simpl; destruct (scan_string t) as [[??]|]) ].
Qed.

Lemma unquote_from_ascii b t :
  byte b < 0x80 -> unquote_from 0 (ascii_out b ++ t) = cons b <$> unquote_from 0 t.
Proof.
  destruct b as [[] [] [] [] [] [] [] []]; intros Hb;
    first [ by (exfalso; cbv in Hb)
          | by (simpl; destruct (unquote_from 0 t)) ].
Qed.

Lemma scan_string_pass c t :
  0x80 <= byte c -> scan_string (c :: t) = prepend [c] (scan_string t).
Proof.
  intros Hc. simpl.
  destruct (Ascii.eqb_spec c quote) as [->|_]; [by vm_compute in Hc|].
  destruct (Ascii.eqb_spec c backslash) as [->|_]; [by vm_compute in Hc|].
  destruct (Z.ltb_spec (byte c) 0x20); [lia|]. done.
Qed.

Lemma scan_string_bytes bs t :
  Forall (fun c => 0x80 <= byte c) bs ->
  scan_string (bs ++ t) = prepend bs (scan_string t).
Proof.
  induction 1 as [|c bs Hc _ IH]; simpl app.
  - by destruct (scan_string t) as [[??]|].
  - rewrite scan_string_pass, IH by done.
    by destruct (scan_string t) as [[??]|].
Qed.

(** The loops at a byte outside ASCII: each decodes the rune there. *)

Lemma Valid_from_high b rest :
  0x80 <= byte b ->
  Valid_from 0 (b :: rest)
  = let '(_, size) := DecodeRune (b :: rest) in
    if (size =? 1)%nat then false else Valid_from (size - 1) rest.
Proof.
  intros Hb. cbn [Valid_from].
  by destruct (Z.ltb_spec (byte b) 0x80); [lia|].
Qed.

Lemma appendString_from_high b rest :
  0x80 <= byte b ->
  appendString_from 0 (b :: rest)
  = let '(c, size) := DecodeRune (b :: rest) in
    if (c =? RuneError) && (size =? 1)%nat then
      [backslash; "u"; "f"; "f"; "f"; "d"]%char ++ appendString_from 0 rest
    else if (c =? 0x2028) || (c =? 0x2029) then
      [backslash; "u"; "2"; "0"; "2"; hex_digit (Z.land c 0xF)]%char ++
      match rest with
      | _ :: _ :: rest' => appendString_from 0 rest'
      | _ => []
      end
    else b :: appendString_from (size - 1) rest.
Proof.
  intros Hb. cbn [appendString_from].
  by destruct (Z.ltb_spec (byte b) 0x80); [lia|].
Qed.

Lemma unquote_from_high b rest :
  0x80 <= byte b ->
  unquote_from 0 (b :: rest)
  = let '(rr, size) := DecodeRune (b :: rest) in
    app (EncodeRune rr) <$> unquote_from (size - 1) rest.
Proof.
  intros Hb. cbn [unquote_from].
  destruct (Ascii.eqb_spec b backslash) as [->|_]; [by vm_compute in Hb|].
  destruct (Ascii.eqb_spec b quote) as [->|_]; [by vm_compute in Hb|].
  destruct (Z.ltb_spec (byte b) 0x20); [lia|].
  by destruct (Z.ltb_spec (byte b) 0x80); [lia|].
Qed.

Section multibyte.

Context (bs : list ascii) (r : Z) (Hbs : multibyte bs r).

Lemma multibyte_head :
  exists b tl, bs = b :: tl /\ 0x80 <= byte b /\ (0 < length tl)%nat.
Proof.
  destruct Hbs as (Hlen & Hall & _).
  destruct bs as [|b tl]; [simpl in Hlen; lia|].
  exists b, tl. split; [done|]. split; [by inversion Hall|simpl in Hlen; lia].
Qed.

Lemma multibyte_DecodeRune b tl t :
  bs = b :: tl -> DecodeRune (b :: tl ++ t) = (r, S (length tl)).
Proof. intros ->. destruct Hbs as (_ & _ & _ & _ & Hdec). apply Hdec. Qed.

Lemma Valid_from_multibyte t : Valid_from 0 (bs ++ t) = Valid_from 0 t.
Proof.
  destruct multibyte_head as (b & tl & Heq & Hb & Htl).
  pose proof (multibyte_DecodeRune b tl t Heq) as Hdec. subst bs.
  cbn [app]. rewrite Valid_from_high, Hdec by done.
  destruct (Nat.eqb_spec (S (length tl)) 1); [lia|].
  rewrite Valid_from_drop. f_equal.
  replace (S (length tl) - 1)%nat with (length tl) by lia.
  by rewrite drop_app_length.
Qed.

Lemma unquote_from_multibyte t :
  unquote_from 0 (bs ++ t) = app bs <$> unquote_from 0 t.
Proof.
  destruct multibyte_head as (b & tl & Heq & Hb & Htl).
  pose proof (multibyte_DecodeRune b tl t Heq) as Hdec.
  destruct Hbs as (_ & _ & Henc & _). subst bs.
  cbn [app]. rewrite unquote_from_high, Hdec, Henc, unquote_from_drop by done.
  replace (S (length tl) - 1)%nat with (length tl) by lia.
  by rewrite drop_app_length.
Qed.

Lemma appendString_from_multibyte t :
  r <> 0x2028 -> r <> 0x2029 ->
  appendString_from 0 (bs ++ t) = bs ++ appendString_from 0 t.
Proof.
  intros H28 H29.
  destruct multibyte_head as (b & tl & Heq & Hb & Htl).
  pose proof (multibyte_DecodeRune b tl t Heq) as Hdec. subst bs.
  cbn [app]. rewrite appendString_from_high, Hdec by done.
  destruct (Nat.eqb_spec (S (length tl)) 1); [lia|]. rewrite andb_false_r.
  destruct (Z.eqb_spec r 0x2028); [done|].
  destruct (Z.eqb_spec r 0x2029); [done|]. cbn [orb].
  replace (S (length tl) - 1)%nat with (length tl) by lia.
  rewrite appendString_from_copy by (rewrite length_app; lia).
  by rewrite take_app_length, drop_app_length.
Qed.

Lemma appendString_from_separator t :
  r = 0x2028 \/ r = 0x2029 ->
  appendString_from 0 (bs ++ t)
  = [backslash; "u"%char; "2"%char; "0"%char; "2"%char;
     if r =? 0x2028 then "8"%char else "9"%char]
    ++ appendString_from 0 t.
Proof.
  intros Hr.
  destruct Hbs as (_ & _ & Henc & _ & Hdec).
  assert (exists b0 b1 b2, bs = [b0; b1; b2] /\ 0x80 <= byte b0)
    as (b0 & b1 & b2 & -> & Hb).
  { destruct Hr as [-> | ->]; rewrite <- Henc;
      do 3 eexists; (split; [vm_compute; reflexivity | by vm_compute]). }
  specialize (Hdec t). cbn [app] in *.
  rewrite appendString_from_high, Hdec by done.
  by destruct Hr as [-> | ->].
Qed.

End multibyte.

Lemma appendString_from_invalid b rest :
  0x80 <= byte b -> DecodeRune (b :: rest) = (RuneError, 1%nat) ->
  appendString_from 0 (b :: rest)
  = [backslash; "u"; "f"; "f"; "f"; "d"]%char ++ appendString_from 0 rest.
Proof. intros Hb Hdec. by rewrite appendString_from_high, Hdec. Qed.

(** How a string starts, as the loops see it. *)
Lemma string_cases b rest :
  byte b < 0x80 \/
  (0x80 <= byte b /\ DecodeRune (b :: rest) = (RuneError, 1%nat)) \/
  exists bs r rest', b :: rest = bs ++ rest' /\ multibyte bs r.
Proof.
  destruct (Z.lt_ge_cases (byte b) 0x80) as [?|Hb]; [by left|]. right.
  destruct (DecodeRune (b :: rest)) as [r n] eqn:Hdec.
  destruct (DecodeRune_cases _ _ _ _ Hb Hdec) as [[-> ->]|(bs & rest' & ? & ? & ?)];
    [by left|right; eauto].
Qed.

(** ** A quoted string is read back *)

Lemma multibyte_shorter bs r b tl rest' :
  b :: tl = bs ++ rest' -> multibyte bs r -> (length rest' < length tl)%nat.
Proof.
  intros Heq (Hlen & _). apply (f_equal length) in Heq.
  rewrite length_app in Heq. simpl in Heq. lia.
Qed.

(** The scanner finds the closing quote of what [appendString] wrote. *)
Lemma scan_string_appendString_from src rest :
  scan_string (appendString_from 0 src ++ quote :: rest)
  = Some (appendString_from 0 src, rest).
Proof.
  assert (forall n src, (length src <= n)%nat ->
            scan_string (appendString_from 0 src ++ quote :: rest)
            = Some (appendString_from 0 src, rest)) as Hall; [|by eapply Hall].
  clear src. induction n as [|n IH]; intros src Hn.
  { by destruct src; [|simpl in Hn; lia]. }
  destruct src as [|b tl]; [done|]. simpl in Hn.
  destruct (string_cases b tl) as [Hb|[[Hb Hdec]|(bs & r & rest' & Heq & Hbs)]].
  - rewrite appendString_from_ascii, <- app_assoc, scan_string_ascii by done.
    by rewrite IH by lia.
  - rewrite appendString_from_invalid by done.
    rewrite <- app_assoc. simpl. by rewrite IH by lia.
  - pose proof (multibyte_shorter _ _ _ _ _ Heq Hbs) as Hlt. rewrite Heq.
    destruct (Z.eq_dec r 0x2028) as [H28|H28];
      [|destruct (Z.eq_dec r 0x2029) as [H29|H29]].
    + rewrite (appendString_from_separator _ _ Hbs) by auto.
      rewrite <- app_assoc. subst r. simpl. by rewrite IH by lia.
    + rewrite (appendString_from_separator _ _ Hbs) by auto.
      rewrite <- app_assoc. subst r. simpl. by rewrite IH by lia.
    + rewrite (appendString_from_multibyte _ _ Hbs) by done.
      rewrite <- app_assoc, scan_string_bytes by apply Hbs.
      by rewrite IH by lia.
Qed.

(** Unquoting gives back a string of valid UTF-8. *)
Lemma unquote_from_appendString_from src :
  Valid src = true ->
  unquote_from 0 (appendString_from 0 src) = Some src.
Proof.
  unfold Valid.
  assert (forall n src, (length src <= n)%nat -> Valid_from 0 src = true ->
            unquote_from 0 (appendString_from 0 src) = Some src) as Hall;
    [|by eapply Hall].
  clear src. induction n as [|n IH]; intros src Hn Hvalid.
  { by destruct src; [|simpl in Hn; lia]. }
  destruct src as [|b tl]; [done|]. simpl in Hn.
  destruct (string_cases b tl) as [Hb|[[Hb Hdec]|(bs & r & rest' & Heq & Hbs)]].
  - rewrite appendString_from_ascii, unquote_from_ascii by done.
    rewrite IH; [done|lia|].
    simpl in Hvalid. by destruct (Z.ltb_spec (byte b) 0x80); [|lia].
  - exfalso. by rewrite Valid_from_high, Hdec in Hvalid.
  - pose proof (multibyte_shorter _ _ _ _ _ Heq Hbs) as Hlt.
    rewrite Heq in Hvalid |- *.
    rewrite (Valid_from_multibyte _ _ Hbs) in Hvalid.
    assert (unquote_from 0 (appendString_from 0 rest') = Some rest') as Hrest
      by (apply IH; [lia|done]).
    destruct (Z.eq_dec r 0x2028) as [H28|H28];
      [|destruct (Z.eq_dec r 0x2029) as [H29|H29]].
    + rewrite (appendString_from_separator _ _ Hbs) by auto.
      destruct Hbs as (_ & _ & Henc & _). subst r. simpl.
      rewrite Hrest. simpl. by rewrite <- Henc.
    + rewrite (appendString_from_separator _ _ Hbs) by auto.
      destruct Hbs as (_ & _ & Henc & _). subst r. simpl.
      rewrite Hrest. simpl. by rewrite <- Henc.
    + rewrite (appendString_from_multibyte _ _ Hbs) by done.
      by rewrite (unquote_from_multibyte _ _ Hbs), Hrest.
Qed.

Lemma scan_string_appendString s rest :
  exists body,
    appendString s ++ rest = quote :: body ++ quote :: rest /\
    scan_string (body ++ quote :: rest) = Some (body, rest) /\
    (valid_string s -> unquote body = Some s).
Proof.
  exists (appendString_from 0 (list_ascii_of_string s)). split; [|split].
  - unfold appendString. by rewrite <- !app_assoc.
  - apply scan_string_appendString_from.
  - intros Hs. unfold unquote.
    rewrite unquote_from_appendString_from by done. simpl.
    by rewrite string_of_list_ascii_of_string.
Qed.

(** ** An object is read back *)

Lemma join_cons_cons sep p q parts :
  join sep (p :: q :: parts) = p ++ sep ++ join sep (q :: parts).
Proof. reflexivity. Qed.

Lemma member_nonempty kv : exists c body, member kv = quote :: c :: body.
Proof.
  unfold member, appendString. simpl.
  destruct (appendString_from 0 (list_ascii_of_string kv.1)); simpl; eauto.
Qed.

Lemma members_text_cons kv l rest :
  members_text (kv :: l) rest
  = member kv ++ match l with
                 | [] => "}"%char :: rest
                 | _ :: _ => ","%char :: members_text l rest
                 end.
Proof.
  unfold members_text. destruct l as [|kv' l]; [reflexivity|].
  rewrite !fmap_cons, join_cons_cons, <- !app_assoc. reflexivity.
Qed.

Lemma members_text_head kv l rest :
  exists tl, members_text (kv :: l) rest = quote :: tl.
Proof.
  rewrite members_text_cons. destruct (member_nonempty kv) as (c & body & ->).
  simpl. eauto.
Qed.

Lemma skipSpace_members_text kv l rest :
  skipSpace (members_text (kv :: l) rest) = members_text (kv :: l) rest.
Proof. by destruct (members_text_head kv l rest) as (tl & ->). Qed.

Lemma members_text_length l rest : (length l < length (members_text l rest))%nat.
Proof.
  induction l as [|kv l IH]; [simpl; lia|].
  rewrite members_text_cons, length_app.
  destruct (member_nonempty kv) as (c & body & ->). simpl length.
  destruct l; simpl length in *; lia.
Qed.

Lemma scan_value_string fuel depth r :
  (0 < fuel)%nat ->
  scan_value fuel depth (quote :: r) = snd <$> scan_string r.
Proof.
  destruct fuel as [|fuel]; [lia|]. intros _. simpl.
  by destruct (scan_string r) as [[??]|].
Qed.

Lemma skipSpace_other c r : isSpace c = false -> skipSpace (c :: r) = c :: r.
Proof. intros H. simpl. by rewrite H. Qed.

Lemma scan_members_step fuel depth r :
  scan_members (S fuel) depth (quote :: r) =
  match scan_string r with
  | Some (_, r1) =>
      match skipSpace r1 with
      | colon :: r2 =>
          if Ascii.eqb colon ":" then
            match scan_value fuel depth (skipSpace r2) with
            | Some r3 =>
                match skipSpace r3 with
                | d :: r4 =>
                    if Ascii.eqb d "," then scan_members fuel depth (skipSpace r4)
                    else if Ascii.eqb d "}" then Some r4
                    else None
                | [] => None
                end
            | None => None
            end
          else None
      | [] => None
      end
  | None => None
  end.
Proof. reflexivity. Qed.

Lemma scan_members_text l : forall fuel depth rest,
  l <> [] -> (length l < fuel)%nat ->
  scan_members fuel depth (members_text l rest) = Some rest.
Proof.
  induction l as [|kv l IH]; intros fuel depth rest Hne Hfuel; [done|].
  destruct fuel as [|fuel]; [simpl in Hfuel; lia|].
  rewrite members_text_cons. unfold member. rewrite <- !app_assoc.
  destruct (scan_string_appendString kv.1
              ([":"%char] ++ appendString kv.2 ++
               match l with
               | [] => "}"%char :: rest
               | _ :: _ => ","%char :: members_text l rest
               end)) as (key & -> & Hkey & _).
  destruct (scan_string_appendString kv.2
              match l with
              | [] => "}"%char :: rest
              | _ :: _ => ","%char :: members_text l rest
              end) as (val & Hval_eq & Hval & _).
  rewrite scan_members_step, Hkey. cbn [app].
  rewrite (skipSpace_other ":") by done.
  change (Ascii.eqb ":" ":") with true. cbv iota.
  rewrite Hval_eq, (skipSpace_other quote) by done.
  rewrite scan_value_string by (simpl in Hfuel; lia). rewrite Hval.
  destruct l as [|kv' l]; [done|].
  cbn [fmap option_fmap option_map snd].
  rewrite (skipSpace_other ",") by done.
  change (Ascii.eqb "," ",") with true. cbv iota.
  rewrite skipSpace_members_text. apply IH; [done|simpl in *; lia].
Qed.

Lemma member_value_string fuel s r :
  forall body rest,
    scan_string r = Some (body, rest) -> unquote body = Some s ->
    member_value fuel (quote :: r) = Some (s, None, rest).
Proof.
  intros body rest Hscan Hun. unfold member_value.
  change (Ascii.eqb quote quote) with true. cbv iota.
  by rewrite Hscan, Hun.
Qed.

Lemma object_members_step fuel r m saved :
  object_members (S fuel) (quote :: r) m saved =
  match scan_string r with
  | Some (raw_key, r1) =>
      match unquote raw_key, skipSpace r1 with
      | Some key, colon :: r2 =>
          match member_value fuel (skipSpace r2) with
          | Some (text, err, r3) =>
              let saved' := match saved with
                            | Some _ => saved
                            | None => err
                            end in
              match skipSpace r3 with
              | d :: r4 =>
                  if Ascii.eqb d ","
                  then object_members fuel (skipSpace r4) (<[key := text]> m) saved'
                  else if Ascii.eqb d "}"
                  then Some (<[key := text]> m, saved')
                  else None
              | [] => None
              end
          | None => None
          end
      | _, _ => None
      end
  | None => None
  end.
Proof. reflexivity. Qed.

Lemma object_members_text l : forall fuel m rest,
  l <> [] -> (length l < fuel)%nat ->
  Forall (fun kv => valid_string kv.1 /\ valid_string kv.2) l ->
  object_members fuel (members_text l rest) m None
  = Some (foldl store_member m l, None).
Proof.
  induction l as [|kv l IH]; intros fuel m rest Hne Hfuel Hvalid; [done|].
  apply Forall_cons in Hvalid as [[Hk Hv] Hvalid].
  destruct fuel as [|fuel]; [simpl in Hfuel; lia|].
  rewrite members_text_cons. unfold member. rewrite <- !app_assoc.
  destruct (scan_string_appendString kv.1
              ([":"%char] ++ appendString kv.2 ++
               match l with
               | [] => "}"%char :: rest
               | _ :: _ => ","%char :: members_text l rest
               end)) as (key & -> & Hkey & Hkey').
  destruct (scan_string_appendString kv.2
              match l with
              | [] => "}"%char :: rest
              | _ :: _ => ","%char :: members_text l rest
              end) as (val & Hval_eq & Hval & Hval').
  rewrite object_members_step, Hkey, Hkey' by done. cbn [app].
  rewrite (skipSpace_other ":") by done.
  rewrite Hval_eq, (skipSpace_other quote) by done.
  rewrite (member_value_string _ kv.2 _ _ _ Hval) by auto.
  destruct l as [|kv' l]; [done|].
  rewrite (skipSpace_other ",") by done.
  change (Ascii.eqb "," ",") with true. cbv iota.
  rewrite skipSpace_members_text. cbn [foldl].
  apply IH; [done|simpl in *; lia|done].
Qed.

(** Storing the members of a map one by one builds the map. *)
Lemma foldl_store_member l : forall m,
  NoDup l.*1 -> foldl store_member m l = list_to_map l ∪ m.
Proof.
  induction l as [|[k v] l IH]; intros m Hnd; simpl.
  - by rewrite (left_id_L ∅ (∪)).
  - apply NoDup_cons in Hnd as [Hk Hnd]. rewrite IH by done.
    unfold store_member. simpl.
    rewrite <- insert_union_l, insert_union_r; [done|].
    by apply not_elem_of_list_to_map_1.
Qed.

Lemma sorted_members_Permutation m : sorted_members m ≡ₚ map_to_list m.
Proof. apply merge_sort_Permutation. Qed.

Lemma foldl_store_member_sorted m : foldl store_member ∅ (sorted_members m) = m.
Proof.
  pose proof (sorted_members_Permutation m) as Hperm.
  assert (NoDup (sorted_members m).*1) as Hnd.
  { rewrite Hperm. apply NoDup_fst_map_to_list. }
  rewrite foldl_store_member, (right_id_L ∅ (∪)) by done.
  rewrite (list_to_map_proper _ _ Hnd Hperm). apply list_to_map_to_list.
Qed.

(** [json.Unmarshal] reads back what [json.Marshal] wrote for metadata of
    valid UTF-8. *)
Lemma Unmarshal_Marshal v :
  valid_metadata v ->
  exists data, Marshal v = inl data /\ Unmarshal data (Some ∅) = inl v.
Proof.
  destruct v as [m|]; [|intros _; eexists; split; [reflexivity|by vm_compute]].
  intros Hvalid. eexists. split; [reflexivity|].
  pose proof (sorted_members_Permutation m) as Hperm.
  pose proof (foldl_store_member_sorted m) as Hfold.
  remember (sorted_members m) as l eqn:El. clear El.
  assert (Forall (fun kv => valid_string kv.1 /\ valid_string kv.2) l) as Hl.
  { apply Forall_forall. intros [k x] Hin.
    apply (Hvalid k x). apply elem_of_map_to_list. by rewrite <- Hperm. }
  change (["{"%char] ++ join [","%char] (member <$> l) ++ ["}"%char])
    with ("{"%char :: members_text l []).
  pose proof (members_text_length l []) as Hlen.
  unfold Unmarshal, checkValid.
  rewrite (skipSpace_other "{") by done.
  destruct l as [|kv l].
  { simpl in Hfold. subst m. by vm_compute. }
  destruct (members_text_head kv l []) as (tl & Htl).
  assert (scan_value (S (length ("{"%char :: members_text (kv :: l) []))) 0
            ("{"%char :: members_text (kv :: l) []) = Some []) as ->.
  { cbn [scan_value]. change (Ascii.eqb "{" "{") with true. cbv iota.
    change (maxNestingDepth <? 1)%nat with false. cbv iota.
    rewrite skipSpace_members_text, Htl.
    change (Ascii.eqb quote "}") with false. cbv iota. rewrite <- Htl.
    apply scan_members_text; [done|simpl length in *; lia]. }
  cbn [skipSpace]. change (Ascii.eqb "{" "{") with true. cbv iota.
  rewrite skipSpace_members_text, Htl.
  change (Ascii.eqb quote "}") with false. cbv iota. rewrite <- Htl.
  rewrite object_members_text; [|done|simpl length in *; lia|done].
  change (default ∅ (Some ∅)) with (∅ : gmap string string).
  by rewrite Hfold.
Qed.

(** ** A message published and fetched back *)

(** C6, as it holds: for every message whose metadata keys and values are
    valid UTF-8 (or whose metadata map is nil), encoding it as [InsertQuery]
    does, storing the bound values and decoding the stored row as
    [UnmarshalMessage] does yields a message with the same uuid, the same
    metadata and the same payload bytes. *)
Theorem round_trip_valid_utf8 (s : DefaultSQLiteSchema.t) (topic : string)
    (offset : Z) (msg : Message) :
  valid_metadata (Message_Metadata msg) ->
  exists out,
    round_trip s topic offset msg = Some out /\
    Message_UUID out = Message_UUID msg /\
    Message_Metadata out = Message_Metadata msg /\
    string_of_bytes (Message_Payload out) = string_of_bytes (Message_Payload msg).
Proof.
  intros Hvalid.
  destruct (Unmarshal_Marshal _ Hvalid) as (data & Hmarshal & Hunmarshal).
  unfold round_trip, DefaultSQLiteSchema.InsertQuery.
  cbn [DefaultSQLiteSchema.InsertQuery_loop]. rewrite Hmarshal.
  cbn [app stored_row Query_Args].
  unfold DefaultSQLiteSchema.UnmarshalMessage, bytes_of_string.
  cbn [Scan sql_Row_Scanner Row_Metadata Row_UUID Row_Payload NewMessage
       Message_Metadata Message_UUID Message_Payload].
  rewrite list_ascii_of_string_of_list_ascii, Hunmarshal.
  eexists. split; [reflexivity|]. cbn.
  by rewrite !string_of_list_ascii_of_string.
Qed.

(** The message of the specification's example: metadata [{"k":"v"}] and
    payload [hello]. *)
Lemma round_trip_valid_utf8_witness :
  valid_metadata (Some {["k" := "v"]}) /\
  exists out,
    round_trip (DefaultSQLiteSchema.mk None 0) "orders" 1
      (mkMessage "1" (Some {["k" := "v"]}) (bytes_of_string "hello")) = Some out /\
    Message_UUID out = "1" /\
    Message_Metadata out = Some {["k" := "v"]} /\
    string_of_bytes (Message_Payload out) = "hello".
Proof.
  assert (valid_metadata (Some {["k" := "v"]})) as Hvalid
    by (apply map_Forall_singleton; split; reflexivity).
  split; [exact Hvalid|].
  exact (round_trip_valid_utf8 (DefaultSQLiteSchema.mk None 0) "orders" 1
           (mkMessage "1" (Some {["k" := "v"]}) (bytes_of_string "hello"))
           Hvalid).
Defined.

(** C6, as stated, fails on a metadata value that is not valid UTF-8: the
    byte [0xFF] is written as the escape of U+FFFD and comes back as the three
    bytes of that rune. *)
Lemma round_trip_invalid_utf8_differs :
  round_trip (DefaultSQLiteSchema.mk None 0) "orders" 1
    (mkMessage "1" (Some {["k" := String "255" ""]}) (bytes_of_string "hello"))
  = Some (mkMessage "1"
            (Some {["k" := String "239" (String "191" (String "189" ""))]})
            (bytes_of_string "hello")) /\
  ~ exists out,
      round_trip (DefaultSQLiteSchema.mk None 0) "orders" 1
        (mkMessage "1" (Some {["k" := String "255" ""]}) (bytes_of_string "hello"))
      = Some out /\
      Message_Metadata out = Some {["k" := String "255" ""]} /\
      Message_Payload out = bytes_of_string "hello".
Proof.
  assert (round_trip (DefaultSQLiteSchema.mk None 0) "orders" 1
            (mkMessage "1" (Some {["k" := String "255" ""]})
               (bytes_of_string "hello"))
          = Some (mkMessage "1"
                    (Some {["k" := String "239" (String "191" (String "189" ""))]})
                    (bytes_of_string "hello"))) as Hrt
    by (vm_compute; reflexivity).
  split; [exact Hrt|].
  intros (out & Hout & Hmeta & _). rewrite Hrt in Hout.
  injection Hout as <-.
  apply (f_equal (fun v : Metadata => v ≫= lookup "k")) in Hmeta.
  vm_compute in Hmeta. discriminate.
Qed.

(** ** The decoding theorems at a concrete row *)

(** A row whose metadata blob is the text of an unclosed object. *)
Lemma UnmarshalMessage_decode_error_witness :
  json.Unmarshal ["{"%char] (Some ∅) = inr json_SyntaxError /\
  DefaultSQLiteSchema.UnmarshalMessage json.Unmarshal
    (DefaultSQLiteSchema.mk None 0)
    (sql_Row_columns 2 (bytes_of_string "b") (bytes_of_string "hello")
       (Some ["{"%char]))
  = (Row_zero,
     Some (errors_Wrap json_SyntaxError "could not unmarshal metadata as JSON")).
Proof.
  split; [vm_compute; reflexivity|].
  apply (UnmarshalMessage_decode_error json.Unmarshal
           (DefaultSQLiteSchema.mk None 0)
           (sql_Row_columns 2 (bytes_of_string "b") (bytes_of_string "hello")
              (Some ["{"%char]))
           2 (bytes_of_string "b") (bytes_of_string "hello") ["{"%char]
           json_SyntaxError);
    [reflexivity|vm_compute; reflexivity].
Defined.

(** A row whose metadata column is NULL. *)
Lemma UnmarshalMessage_null_metadata_witness :
  DefaultSQLiteSchema.UnmarshalMessage json.Unmarshal
    (DefaultSQLiteSchema.mk None 0)
    (sql_Row_columns 3 (bytes_of_string "c") (bytes_of_string "hello") None)
  = (mkRow 3 (bytes_of_string "c") (bytes_of_string "hello") None
       (Some (mkMessage "c" (Some ∅) (bytes_of_string "hello"))),
     None).
Proof.
  apply (UnmarshalMessage_null_metadata json.Unmarshal
           (DefaultSQLiteSchema.mk None 0)
           (sql_Row_columns 3 (bytes_of_string "c") (bytes_of_string "hello") None)
           3 (bytes_of_string "c") (bytes_of_string "hello")).
  reflexivity.
Defined.

(** * Further properties of the adapters *)

(** ** Decoding a row: the other outcomes *)

Section UnmarshalMessage_outcomes.

Variable json_Unmarshal : list ascii -> Metadata -> Metadata + error.
Context {S : Type} `{Scanner S}.

(** X1: for every row whose scan fails, whatever [json.Unmarshal] does,
    [UnmarshalMessage] returns the zero row and the scan error wrapped with
    the text [could not scan message row]. *)
Theorem UnmarshalMessage_scan_error (s : DefaultSQLiteSchema.t) (row : S)
    (err : error) :
  Scan row = inr err ->
  DefaultSQLiteSchema.UnmarshalMessage json_Unmarshal s row
  = (Row_zero, Some (errors_Wrap err "could not scan message row")).
Proof.
  intros Hscan. unfold DefaultSQLiteSchema.UnmarshalMessage. by rewrite Hscan.
Qed.

(** X2: for every row that scans with a metadata blob that is not nil and
    that [json.Unmarshal] decodes, starting from the empty map of a new
    message, [UnmarshalMessage] returns no error and the scanned columns
    together with a message that has the uuid column as its UUID, the payload
    column as its payload and the decoded map as its metadata. *)
Theorem UnmarshalMessage_decodes_metadata (s : DefaultSQLiteSchema.t) (row : S)
    (offset : Z) (uuid payload : bytes) (data : list ascii) (decoded : Metadata) :
  Scan row = inl (offset, uuid, payload, Some data) ->
  json_Unmarshal data (Some ∅) = inl decoded ->
  DefaultSQLiteSchema.UnmarshalMessage json_Unmarshal s row
  = (mkRow offset uuid payload (Some data)
       (Some (mkMessage (string_of_bytes uuid) decoded payload)),
     None).
Proof.
  intros Hscan Hdec. unfold DefaultSQLiteSchema.UnmarshalMessage.
  rewrite Hscan. simpl. by rewrite Hdec.
Qed.

(** X3: whatever the scanner and [json.Unmarshal] do, [UnmarshalMessage]
    returns either an error with the zero row, the error being a cause
    wrapped with one of its two texts, or no error with a row that holds the
    four scanned columns and a message (never nil) whose UUID and payload are
    those columns. *)
Theorem UnmarshalMessage_row_or_error (s : DefaultSQLiteSchema.t) (row : S) :
  match DefaultSQLiteSchema.UnmarshalMessage json_Unmarshal s row with
  | (r, Some err) =>
      r = Row_zero /\
      exists cause text,
        err = errors_Wrap cause text /\
        text ∈ ["could not scan message row";
                "could not unmarshal metadata as JSON"]
  | (r, None) =>
      Scan row = inl (Row_Offset r, Row_UUID r, Row_Payload r, Row_Metadata r) /\
      exists msg,
        Row_Msg r = Some msg /\
        Message_UUID msg = string_of_bytes (Row_UUID r) /\
        Message_Payload msg = Row_Payload r
  end.
Proof.
  unfold DefaultSQLiteSchema.UnmarshalMessage.
  destruct (Scan row) as [[[[offset uuid] payload] [data|]]|err] eqn:Hscan; simpl.
  - destruct (json_Unmarshal data (Some ∅)) as [decoded|err]; simpl.
    + split; [done|]. eexists. by split.
    + split; [done|]. eexists _, _. split; [done|]. set_solver.
  - split; [done|]. eexists. by split.
  - split; [done|]. eexists _, _. split; [done|]. set_solver.
Qed.

End UnmarshalMessage_outcomes.

(** ** The batch insert: order, text and composition *)

Lemma append_nil_r (s : string) : s +:+ "" = s.
Proof. induction s as [|c s IH]; simpl; [done|]. by rewrite IH. Qed.

Section InsertQuery_batches.

Variable json_Marshal : Metadata -> list ascii + error.

Lemma InsertQuery_loop_first_failure before : forall args msg after err,
  Forall (fun m => exists d, json_Marshal (Message_Metadata m) = inl d) before ->
  json_Marshal (Message_Metadata msg) = inr err ->
  DefaultSQLiteSchema.InsertQuery_loop json_Marshal (before ++ msg :: after) args
  = inr (errors_Wrap err
           ("could not marshal metadata into JSON for message " +:+
            Message_UUID msg)).
Proof.
  induction before as [|m before IH]; intros args msg after err Hok Herr; simpl.
  - by rewrite Herr.
  - apply Forall_cons in Hok as [[d Hd] Hok]. rewrite Hd. by apply IH.
Qed.

(** The arguments of a batch are appended to those gathered before it. *)
Lemma InsertQuery_loop_args msgs : forall args,
  DefaultSQLiteSchema.InsertQuery_loop json_Marshal msgs args
  = match DefaultSQLiteSchema.InsertQuery_loop json_Marshal msgs [] with
    | inl bound => inl (args ++ bound)
    | inr err => inr err
    end.
Proof.
  induction msgs as [|msg msgs IH]; intros args; simpl.
  - by rewrite app_nil_r.
  - destruct (json_Marshal (Message_Metadata msg)) as [d|err]; [|done].
    rewrite IH, (IH [_; _; _]).
    destruct (DefaultSQLiteSchema.InsertQuery_loop json_Marshal msgs []); [|done].
    by rewrite <- app_assoc.
Qed.

Lemma InsertQuery_loop_app l1 : forall l2 args,
  DefaultSQLiteSchema.InsertQuery_loop json_Marshal (l1 ++ l2) args
  = match DefaultSQLiteSchema.InsertQuery_loop json_Marshal l1 args with
    | inl bound => DefaultSQLiteSchema.InsertQuery_loop json_Marshal l2 bound
    | inr err => inr err
    end.
Proof.
  induction l1 as [|msg l1 IH]; intros l2 args; simpl; [done|].
  by destruct (json_Marshal (Message_Metadata msg)).
Qed.

Lemma InsertQuery_loop_length msgs : forall args bound,
  DefaultSQLiteSchema.InsertQuery_loop json_Marshal msgs args = inl bound ->
  length bound = (length args + 3 * length msgs)%nat.
Proof.
  induction msgs as [|msg msgs IH]; intros args bound; simpl.
  - intros [= <-]. lia.
  - destruct (json_Marshal (Message_Metadata msg)) as [d|err]; [|done].
    intros Hloop. apply IH in Hloop. rewrite length_app in Hloop.
    simpl in Hloop. lia.
Qed.

(** What a successful [InsertQuery] returns. *)
Lemma InsertQuery_ok s topic msgs q :
  DefaultSQLiteSchema.InsertQuery json_Marshal s topic msgs = (q, None) ->
  exists bound,
    DefaultSQLiteSchema.InsertQuery_loop json_Marshal msgs [] = inl bound /\
    q = mkQuery
          ("INSERT INTO " +:+ DefaultSQLiteSchema.MessagesTable s topic +:+
           " (uuid, payload, metadata) VALUES " +:+
           strings.TrimRight (strings.Repeat "(?,?,?)," (length msgs)) ",")
          bound.
Proof.
  unfold DefaultSQLiteSchema.InsertQuery.
  destruct (DefaultSQLiteSchema.InsertQuery_loop json_Marshal msgs [])
    as [bound|err]; [|done].
  intros [= <-]. by exists bound.
Qed.

(** X4: for every list of messages, whatever [json.Marshal] does: when it
    fails on a message and succeeds on all the messages before it,
    [InsertQuery] returns the zero query and that failure, wrapped with a text
    that names that message's UUID, whatever messages follow. *)
Theorem InsertQuery_reports_first_failure (s : DefaultSQLiteSchema.t)
    (topic : string) (before : list Message) (msg : Message)
    (after : list Message) (err : error) :
  Forall (fun m => exists d, json_Marshal (Message_Metadata m) = inl d) before ->
  json_Marshal (Message_Metadata msg) = inr err ->
  DefaultSQLiteSchema.InsertQuery json_Marshal s topic (before ++ msg :: after)
  = (Query_zero,
     Some (errors_Wrap err
             ("could not marshal metadata into JSON for message " +:+
              Message_UUID msg))).
Proof.
  intros Hok Herr. unfold DefaultSQLiteSchema.InsertQuery.
  by rewrite (InsertQuery_loop_first_failure before [] msg after err).
Qed.

(** X5: the empty batch is accepted: [InsertQuery] returns no error, a
    text that ends after [VALUES] and no argument; and for every batch that
    [InsertQuery] accepts, the text after [VALUES] is one [(?,?,?)] per
    message joined by commas, with no comma after the last, and there are
    three arguments per message. *)
Theorem InsertQuery_values_joined (s : DefaultSQLiteSchema.t) (topic : string) :
  DefaultSQLiteSchema.InsertQuery json_Marshal s topic []
  = (mkQuery ("INSERT INTO " +:+ DefaultSQLiteSchema.MessagesTable s topic +:+
              " (uuid, payload, metadata) VALUES ") [],
     None) /\
  forall msgs q,
    DefaultSQLiteSchema.InsertQuery json_Marshal s topic msgs = (q, None) ->
    Query_Query q
    = "INSERT INTO " +:+ DefaultSQLiteSchema.MessagesTable s topic +:+
      " (uuid, payload, metadata) VALUES " +:+
      strings.Join (replicate (length msgs) "(?,?,?)") "," /\
    length (Query_Args q) = (3 * length msgs)%nat.
Proof.
  split; [reflexivity|]. intros msgs q Hq.
  destruct (InsertQuery_ok _ _ _ _ Hq) as (bound & Hloop & ->). split.
  - simpl. by rewrite TrimRight_Repeat.
  - simpl. by rewrite (InsertQuery_loop_length _ _ _ Hloop).
Qed.

(** X6: the batch of two lists that [InsertQuery] accepts one by one is
    accepted as a whole; it binds the arguments of the first followed by those
    of the second and has the tuples of both. *)
Theorem InsertQuery_app (s : DefaultSQLiteSchema.t) (topic : string)
    (l1 l2 : list Message) (q1 q2 : Query) :
  DefaultSQLiteSchema.InsertQuery json_Marshal s topic l1 = (q1, None) ->
  DefaultSQLiteSchema.InsertQuery json_Marshal s topic l2 = (q2, None) ->
  exists q,
    DefaultSQLiteSchema.InsertQuery json_Marshal s topic (l1 ++ l2) = (q, None) /\
    Query_Args q = Query_Args q1 ++ Query_Args q2 /\
    let table := DefaultSQLiteSchema.MessagesTable s topic in
    exists t1 t2,
      insert_tuples <$> reads (read_insert table) q1 = Some t1 /\
      insert_tuples <$> reads (read_insert table) q2 = Some t2 /\
      insert_tuples <$> reads (read_insert table) q = Some (t1 ++ t2).
Proof.
  intros H1 H2.
  destruct (InsertQuery_ok _ _ _ _ H1) as (b1 & Hl1 & ->).
  destruct (InsertQuery_ok _ _ _ _ H2) as (b2 & Hl2 & ->).
  unfold DefaultSQLiteSchema.InsertQuery.
  rewrite InsertQuery_loop_app, Hl1, InsertQuery_loop_args, Hl2.
  eexists. split; [reflexivity|]. split; [done|].
  cbv zeta. rewrite !InsertQuery_text_reads. simpl.
  eexists _, _. split; [done|]. split; [done|].
  by rewrite length_app, replicate_add.
Qed.

End InsertQuery_batches.

(** ** Placeholders and bound arguments *)

Lemma count_byte_app c (a b : string) :
  count_byte c (a +:+ b) = (count_byte c a + count_byte c b)%nat.
Proof. induction a as [|d a IH]; simpl; [done|]. rewrite IH. lia. Qed.

Lemma placeholders_string_of_uint d :
  count_byte "?" (NilEmpty.string_of_uint d) = 0%nat.
Proof. induction d; simpl; done. Qed.

(** A number printed with [%d] has no question mark. *)
Lemma placeholders_Sprintf_d n : placeholders (fmt.Sprintf_d n) = 0%nat.
Proof.
  unfold placeholders, fmt.Sprintf_d, NilZero.string_of_int, NilZero.string_of_uint.
  destruct (Z.to_int n) as [d|d]; destruct d; simpl;
    by rewrite ?placeholders_string_of_uint.
Qed.

Lemma placeholders_Join n :
  placeholders (strings.Join (replicate n "(?,?,?)") ",") = (3 * n)%nat.
Proof.
  induction n as [|n IH]; [done|].
  destruct n as [|n]; [done|].
  change (strings.Join (replicate (S (S n)) "(?,?,?)") ",")
    with ("(?,?,?)" +:+ "," +:+ strings.Join (replicate (S n) "(?,?,?)") ",").
  unfold placeholders in *. rewrite !count_byte_app, IH. simpl. lia.
Qed.

(** Counts the question marks of a statement built by concatenation. *)
Ltac count_placeholders :=
  unfold placeholders, LF, TAB; rewrite ?append_assoc, ?count_byte_app; simpl.

(** X7: in each statement of the offsets adapter, the number of question
    marks is the number in the table name plus the number of bound arguments:
    with a table name without question marks, every statement binds exactly
    one argument per placeholder, and the schema statement has neither. *)
Theorem offsets_statements_placeholders (a : DefaultSQLiteOffsetsAdapter.t)
    (topic : string) (row : Row) (consumerGroup : string) (consumerULID : bytes) :
  let table := placeholders (DefaultSQLiteOffsetsAdapter.MessagesOffsetsTable a topic) in
  Forall (fun q => placeholders (Query_Query q)
                   = (table + length (Query_Args q))%nat)
    ([ DefaultSQLiteOffsetsAdapter.AckMessageQuery a topic row consumerGroup;
       DefaultSQLiteOffsetsAdapter.NextOffsetQuery a topic consumerGroup;
       DefaultSQLiteOffsetsAdapter.ConsumedMessageQuery
         a topic row consumerGroup consumerULID ] ++
     DefaultSQLiteOffsetsAdapter.SchemaInitializingQueries a topic ++
     DefaultSQLiteOffsetsAdapter.BeforeSubscribingQueries a topic consumerGroup).
Proof.
  intros table. subst table.
  repeat apply Forall_cons_2; [..|apply Forall_nil_2];
    cbn [Query_Query Query_Args DefaultSQLiteOffsetsAdapter.AckMessageQuery
         DefaultSQLiteOffsetsAdapter.NextOffsetQuery
         DefaultSQLiteOffsetsAdapter.ConsumedMessageQuery];
    count_placeholders; lia.
Qed.

Section InsertQuery_placeholders.

Variable json_Marshal : Metadata -> list ascii + error.

(** X8: in the statement of every batch that [InsertQuery] accepts, the
    number of question marks is the number in the table name plus the number
    of bound arguments, three per message. *)
Theorem InsertQuery_placeholders (s : DefaultSQLiteSchema.t) (topic : string)
    (msgs : list Message) (q : Query) :
  DefaultSQLiteSchema.InsertQuery json_Marshal s topic msgs = (q, None) ->
  placeholders (Query_Query q)
  = (placeholders (DefaultSQLiteSchema.MessagesTable s topic) +
     length (Query_Args q))%nat /\
  length (Query_Args q) = (3 * length msgs)%nat.
Proof.
  intros Hq. destruct (InsertQuery_ok _ _ _ _ _ Hq) as (bound & Hloop & ->).
  cbn [Query_Query Query_Args].
  rewrite (InsertQuery_loop_length _ _ _ _ Hloop), TrimRight_Repeat.
  split; [|done].
  pose proof (placeholders_Join (length msgs)) as Hjoin.
  count_placeholders. unfold placeholders in Hjoin. rewrite Hjoin. simpl. lia.
Qed.

End InsertQuery_placeholders.

(** X9: for every offsets adapter, the question marks of the statement of
    [SelectQuery] are those of the messages table name and of the adapter's
    subquery, and its arguments are the subquery's: with a table name without
    question marks, the fetch statement binds one argument per placeholder
    whenever the subquery does. *)
Theorem SelectQuery_placeholders {A : Type} `{OffsetsAdapter A}
    (s : DefaultSQLiteSchema.t) (topic consumerGroup : string)
    (offsetsAdapter : A) :
  let bound := NextOffsetQuery offsetsAdapter topic consumerGroup in
  let q := DefaultSQLiteSchema.SelectQuery s topic consumerGroup offsetsAdapter in
  placeholders (Query_Query q)
  = (placeholders (DefaultSQLiteSchema.MessagesTable s topic) +
     placeholders (Query_Query bound))%nat /\
  (placeholders (DefaultSQLiteSchema.MessagesTable s topic) = 0%nat ->
   balanced bound -> balanced q).
Proof.
  intros bound q.
  assert (placeholders (Query_Query q)
          = (placeholders (DefaultSQLiteSchema.MessagesTable s topic) +
             placeholders (Query_Query bound))%nat) as Hcount.
  { subst q bound. unfold DefaultSQLiteSchema.SelectQuery.
    cbn [Query_Query]. pose proof (placeholders_Sprintf_d
                                     (DefaultSQLiteSchema.batchSize s)) as Hd.
    count_placeholders. unfold placeholders in Hd. rewrite Hd. lia. }
  split; [done|]. intros Htable Hbound. unfold balanced in *.
  rewrite Hcount, Htable, Hbound. done.
Qed.

(** ** The default table names *)

Lemma length_append (a b : string) :
  String.length (a +:+ b) = (String.length a + String.length b)%nat.
Proof. induction a as [|c a IH]; simpl; [done|]. by rewrite IH. Qed.

Lemma append_inj_r (a b c : string) : a +:+ c = b +:+ c -> a = b.
Proof.
  revert b. induction a as [|x a IH]; intros [|y b] Heq; simpl in Heq.
  - done.
  - apply (f_equal String.length) in Heq. simpl in Heq.
    rewrite length_append in Heq. lia.
  - apply (f_equal String.length) in Heq. simpl in Heq.
    rewrite length_append in Heq. lia.
  - injection Heq as -> Heq. f_equal. by apply IH.
Qed.

(** X10: without a table name generator, the messages tables of two topics
    are the same table only when the topics are the same, and so are their
    offsets tables. *)
Theorem default_table_names_injective (n : Z) (topic1 topic2 : string) :
  (DefaultSQLiteSchema.MessagesTable (DefaultSQLiteSchema.mk None n) topic1
   = DefaultSQLiteSchema.MessagesTable (DefaultSQLiteSchema.mk None n) topic2
   <-> topic1 = topic2) /\
  (DefaultSQLiteOffsetsAdapter.MessagesOffsetsTable
     (DefaultSQLiteOffsetsAdapter.mk None) topic1
   = DefaultSQLiteOffsetsAdapter.MessagesOffsetsTable
       (DefaultSQLiteOffsetsAdapter.mk None) topic2
   <-> topic1 = topic2).
Proof.
  split; (split; [|by intros ->]); simpl; intros [= Heq];
    by apply append_inj_r in Heq.
Qed.

(** X11: without table name generators, the messages table of a topic is
    the offsets table of another topic exactly when the first topic is the
    second with [offsets_] before it: the messages of the topic [offsets_t]
    and the offsets of the topic [t] share the table [watermill_offsets_t]. *)
Theorem default_table_names_clash (n : Z) (topic1 topic2 : string) :
  DefaultSQLiteSchema.MessagesTable (DefaultSQLiteSchema.mk None n) topic1
  = DefaultSQLiteOffsetsAdapter.MessagesOffsetsTable
      (DefaultSQLiteOffsetsAdapter.mk None) topic2
  <-> topic1 = "offsets_" +:+ topic2.
Proof.
  simpl. split.
  - intros [= Heq].
    change (String "o" (String "f" (String "f" (String "s" (String "e"
             (String "t" (String "s" (String "_" (topic2 +:+ "`")))))))))
      with (("offsets_" +:+ topic2) +:+ "`") in Heq.
    by apply append_inj_r in Heq.
  - by intros ->.
Qed.

(** ** A topic inside the quotes of a table name *)

Lemma quoted_chars_closed (n rest : string) :
  count_byte "`" n = 0%nat -> strip_prefix "`" rest = None ->
  quoted_chars (n +:+ "`" +:+ rest) = Some (n, rest).
Proof.
  intros Hn Hrest. induction n as [|c n IH].
  - destruct rest as [|c' rest']; [done|].
    cbn [String.append quoted_chars]. change (Ascii.eqb "`" "`") with true.
    cbn [strip_prefix] in Hrest. rewrite (Ascii.eqb_sym c').
    by destruct (Ascii.eqb "`" c').
  - cbn [String.append quoted_chars]. cbn [count_byte] in Hn.
    rewrite (Ascii.eqb_sym c). destruct (Ascii.eqb "`" c); [done|].
    cbn [String.append] in IH. by rewrite IH.
Qed.

(** X12: without table name generators, the table names of a topic that
    has no backtick are each one backtick-quoted identifier, the topic after
    [watermill_] or [watermill_offsets_]; a backtick in the topic is not
    escaped: followed by a byte that is not a backtick it closes the
    identifier, and what follows it in the topic is left outside the
    quotes. *)
Theorem default_table_names_quote_topic (n : Z) (pre : string) (c : ascii)
    (post : string) :
  count_byte "`" pre = 0%nat ->
  c <> "`"%char ->
  let messages := DefaultSQLiteSchema.MessagesTable (DefaultSQLiteSchema.mk None n) in
  let offsets := DefaultSQLiteOffsetsAdapter.MessagesOffsetsTable
                   (DefaultSQLiteOffsetsAdapter.mk None) in
  quoted_identifier (messages pre) = Some ("watermill_" +:+ pre, "") /\
  quoted_identifier (offsets pre) = Some ("watermill_offsets_" +:+ pre, "") /\
  quoted_identifier (messages (pre +:+ "`" +:+ String c post))
  = Some ("watermill_" +:+ pre, String c post +:+ "`") /\
  quoted_identifier (offsets (pre +:+ "`" +:+ String c post))
  = Some ("watermill_offsets_" +:+ pre, String c post +:+ "`").
Proof.
  intros Hpre Hc messages offsets. subst messages offsets.
  assert (forall name tail,
            count_byte "`" name = 0%nat -> strip_prefix "`" tail = None ->
            quoted_identifier ("`" +:+ name +:+ "`" +:+ tail) = Some (name, tail))
    as Hq by (intros name tail ??; by apply quoted_chars_closed).
  assert (strip_prefix "`" (String c post +:+ "`") = None) as Hpost.
  { cbn [String.append strip_prefix].
    by destruct (Ascii.eqb_spec "`" c) as [<-|_]. }
  unfold DefaultSQLiteSchema.MessagesTable,
    DefaultSQLiteOffsetsAdapter.MessagesOffsetsTable.
  cbn [DefaultSQLiteSchema.GenerateMessagesTableName
       DefaultSQLiteOffsetsAdapter.GenerateMessagesOffsetsTableName].
  repeat split.
  - apply (Hq ("watermill_" +:+ pre) ""); [apply Hpre|done].
  - apply (Hq ("watermill_offsets_" +:+ pre) ""); [apply Hpre|done].
  - rewrite <- (Hq ("watermill_" +:+ pre) (String c post +:+ "`"));
      [|apply Hpre|done].
    f_equal. by rewrite !append_assoc.
  - rewrite <- (Hq ("watermill_offsets_" +:+ pre) (String c post +:+ "`"));
      [|apply Hpre|done].
    f_equal. by rewrite !append_assoc.
Qed.

(** ** The batch size *)

(** X13: the [LIMIT] of the fetch statement is never zero; it is positive
    exactly when [SubscribeBatchSize] is not negative, and a negative
    [SubscribeBatchSize] is written as it is. *)
Theorem SelectQuery_limit_sign {A : Type} `{OffsetsAdapter A}
    (s : DefaultSQLiteSchema.t) (topic consumerGroup : string)
    (offsetsAdapter : A) :
  exists limit,
    select_limit <$>
      reads (read_select (DefaultSQLiteSchema.MessagesTable s topic)
               (Query_Query (NextOffsetQuery offsetsAdapter topic consumerGroup)))
            (DefaultSQLiteSchema.SelectQuery s topic consumerGroup offsetsAdapter)
    = Some limit /\
    limit <> 0 /\
    (0 < limit <-> 0 <= DefaultSQLiteSchema.SubscribeBatchSize s) /\
    (DefaultSQLiteSchema.SubscribeBatchSize s < 0 ->
     limit = DefaultSQLiteSchema.SubscribeBatchSize s).
Proof.
  rewrite SelectQuery_reads. eexists. split; [reflexivity|].
  cbn [select_limit]. unfold DefaultSQLiteSchema.batchSize.
  destruct (Z.eqb_spec (DefaultSQLiteSchema.SubscribeBatchSize s) 0); lia.
Qed.

(** ** Values are bound, never written into the text *)

(** X14: for given adapters and a given topic, the text of a statement
    does not depend on the values it is built for, only on the number of
    messages for [InsertQuery]: the offset of a row, the consumer group, the
    [consumerULID], and the uuid, payload and metadata of a message reach the
    database only as bound arguments. *)
Theorem statements_text_independent_of_values
    (a : DefaultSQLiteOffsetsAdapter.t) (s : DefaultSQLiteSchema.t)
    (json_Marshal : Metadata -> list ascii + error) (topic : string) :
  (forall row row' consumerGroup consumerGroup' consumerULID consumerULID',
     Query_Query (DefaultSQLiteOffsetsAdapter.AckMessageQuery a topic row consumerGroup)
     = Query_Query (DefaultSQLiteOffsetsAdapter.AckMessageQuery a topic row' consumerGroup') /\
     Query_Query (DefaultSQLiteOffsetsAdapter.NextOffsetQuery a topic consumerGroup)
     = Query_Query (DefaultSQLiteOffsetsAdapter.NextOffsetQuery a topic consumerGroup') /\
     Query_Query (DefaultSQLiteOffsetsAdapter.ConsumedMessageQuery
                    a topic row consumerGroup consumerULID)
     = Query_Query (DefaultSQLiteOffsetsAdapter.ConsumedMessageQuery
                      a topic row' consumerGroup' consumerULID') /\
     Query_Query (DefaultSQLiteSchema.SelectQuery s topic consumerGroup a)
     = Query_Query (DefaultSQLiteSchema.SelectQuery s topic consumerGroup' a)) /\
  (forall msgs msgs' q q',
     length msgs = length msgs' ->
     DefaultSQLiteSchema.InsertQuery json_Marshal s topic msgs = (q, None) ->
     DefaultSQLiteSchema.InsertQuery json_Marshal s topic msgs' = (q', None) ->
     Query_Query q = Query_Query q').
Proof.
  split; [done|]. intros msgs msgs' q q' Hlen Hq Hq'.
  destruct (InsertQuery_ok _ _ _ _ _ Hq) as (bound & _ & ->).
  destruct (InsertQuery_ok _ _ _ _ _ Hq') as (bound' & _ & ->).
  simpl. by rewrite Hlen.
Qed.

(** ** The columns of the schemas and of the statements *)

Lemma AckMessageQuery_reads a topic row consumerGroup :
  reads (read_insert (DefaultSQLiteOffsetsAdapter.MessagesOffsetsTable a topic))
    (DefaultSQLiteOffsetsAdapter.AckMessageQuery a topic row consumerGroup)
  = Some (mkInsert ["offset_consumed"; "offset_acked"; "consumer_group"]
            [3%nat]
            [("offset_consumed", "offset_consumed");
             ("offset_acked", "offset_acked")]).
Proof.
  unfold DefaultSQLiteOffsetsAdapter.AckMessageQuery.
  read_statement. reflexivity.
Qed.

Lemma ConsumedMessageQuery_reads a topic row consumerGroup consumerULID :
  reads (read_insert (DefaultSQLiteOffsetsAdapter.MessagesOffsetsTable a topic))
    (DefaultSQLiteOffsetsAdapter.ConsumedMessageQuery
       a topic row consumerGroup consumerULID)
  = Some (mkInsert ["offset_consumed"; "consumer_group"] [2%nat]
            [("offset_consumed", "offset_consumed")]).
Proof.
  unfold DefaultSQLiteOffsetsAdapter.ConsumedMessageQuery.
  read_statement. reflexivity.
Qed.

Lemma NextOffsetQuery_reads a topic consumerGroup :
  reads (read_coalesce (DefaultSQLiteOffsetsAdapter.MessagesOffsetsTable a topic))
    (DefaultSQLiteOffsetsAdapter.NextOffsetQuery a topic consumerGroup)
  = Some (mkCoalesce "offset_acked" "consumer_group" true 0).
Proof.
  unfold DefaultSQLiteOffsetsAdapter.NextOffsetQuery.
  read_statement. reflexivity.
Qed.

(** The offsets schema with its column definitions. *)
Lemma offsets_schema_columns a topic :
  exists q c,
    DefaultSQLiteOffsetsAdapter.SchemaInitializingQueries a topic = [q] /\
    reads (read_create (DefaultSQLiteOffsetsAdapter.MessagesOffsetsTable a topic)) q
    = Some c /\
    column_definitions c
    = [ mkColumn "consumer_group" "TEXT" true false false;
        mkColumn "offset_acked" "INTEGER" false false false;
        mkColumn "offset_consumed" "INTEGER" true false false ] /\
    primary_key c = Some "consumer_group".
Proof.
  eexists _, _. split; [reflexivity|]. split; [read_statement; reflexivity|].
  split; vm_compute; reflexivity.
Qed.

(** The messages schema with its column definitions. *)
Lemma messages_schema_columns s topic :
  exists q c,
    DefaultSQLiteSchema.SchemaInitializingQueries s topic = [q] /\
    reads (read_create (DefaultSQLiteSchema.MessagesTable s topic)) q = Some c /\
    column_definitions c
    = [ mkColumn "offset" "INTEGER" true false true;
        mkColumn "uuid" "TEXT" true false false;
        mkColumn "created_at" "TEXT" true false false;
        mkColumn "payload" "BLOB" false true false;
        mkColumn "metadata" "BLOB" false true false ].
Proof.
  eexists _, _. split; [reflexivity|]. split; [read_statement; reflexivity|].
  vm_compute; reflexivity.
Qed.

(** X15: for every topic, the offsets schema declares the columns
    [consumer_group], [offset_acked] and [offset_consumed], of which
    [consumer_group] and [offset_consumed] are declared [NOT NULL] without a
    default; the statements of [AckMessageQuery] and [ConsumedMessageQuery]
    insert only declared columns and give a value to each of those two, and
    the column that [NextOffsetQuery] reads, [offset_acked], is declared and
    may be NULL. *)
Theorem offsets_statements_fit_schema (a : DefaultSQLiteOffsetsAdapter.t)
    (topic : string) (row : Row) (consumerGroup : string) (consumerULID : bytes) :
  let table := DefaultSQLiteOffsetsAdapter.MessagesOffsetsTable a topic in
  exists schema c ack consumed next,
    DefaultSQLiteOffsetsAdapter.SchemaInitializingQueries a topic = [schema] /\
    reads (read_create table) schema = Some c /\
    reads (read_insert table)
      (DefaultSQLiteOffsetsAdapter.AckMessageQuery a topic row consumerGroup)
    = Some ack /\
    reads (read_insert table)
      (DefaultSQLiteOffsetsAdapter.ConsumedMessageQuery
         a topic row consumerGroup consumerULID)
    = Some consumed /\
    reads (read_coalesce table)
      (DefaultSQLiteOffsetsAdapter.NextOffsetQuery a topic consumerGroup)
    = Some next /\
    column_name <$> column_definitions c
    = ["consumer_group"; "offset_acked"; "offset_consumed"] /\
    required_columns c = ["consumer_group"; "offset_consumed"] /\
    required_columns c ⊆ insert_columns ack /\
    insert_columns ack ⊆ column_name <$> column_definitions c /\
    required_columns c ⊆ insert_columns consumed /\
    insert_columns consumed ⊆ column_name <$> column_definitions c /\
    coalesce_column next ∈ column_name <$> column_definitions c /\
    coalesce_column next ∉ required_columns c.
Proof.
  intros table. subst table.
  destruct (offsets_schema_columns a topic) as (schema & c & Hs & Hc & Hcols & _).
  exists schema, c. eexists _, _, _.
  rewrite AckMessageQuery_reads, ConsumedMessageQuery_reads, NextOffsetQuery_reads.
  do 5 (split; [done|]).
  unfold required_columns. rewrite Hcols. cbn.
  repeat split; by apply (bool_decide_unpack _).
Qed.

Section InsertQuery_columns.

Variable json_Marshal : Metadata -> list ascii + error.

(** X16: for every topic, the messages schema declares the columns
    [offset], [uuid], [created_at], [payload] and [metadata]; the statements
    of [InsertQuery] and of [SelectQuery] name only declared columns; of the
    columns declared [NOT NULL] with neither a default nor [AUTOINCREMENT],
    [uuid] and [created_at], the statement of [InsertQuery] gives a value to
    [uuid] and none to [created_at]. *)
Theorem InsertQuery_leaves_created_at_unset (s : DefaultSQLiteSchema.t)
    (a : DefaultSQLiteOffsetsAdapter.t) (topic consumerGroup : string)
    (msgs : list Message) (q : Query) :
  DefaultSQLiteSchema.InsertQuery json_Marshal s topic msgs = (q, None) ->
  let table := DefaultSQLiteSchema.MessagesTable s topic in
  exists schema c ins sel,
    DefaultSQLiteSchema.SchemaInitializingQueries s topic = [schema] /\
    reads (read_create table) schema = Some c /\
    reads (read_insert table) q = Some ins /\
    reads (read_select table
             (Query_Query (NextOffsetQuery a topic consumerGroup)))
      (DefaultSQLiteSchema.SelectQuery s topic consumerGroup a)
    = Some sel /\
    column_name <$> column_definitions c
    = ["offset"; "uuid"; "created_at"; "payload"; "metadata"] /\
    required_columns c = ["uuid"; "created_at"] /\
    insert_columns ins = ["uuid"; "payload"; "metadata"] /\
    insert_columns ins ⊆ column_name <$> column_definitions c /\
    select_columns sel ⊆ column_name <$> column_definitions c /\
    "created_at" ∈ required_columns c /\
    "created_at" ∉ insert_columns ins.
Proof.
  intros Hq table. subst table.
  destruct (InsertQuery_ok _ _ _ _ _ Hq) as (bound & _ & ->).
  destruct (messages_schema_columns s topic) as (schema & c & Hs & Hc & Hcols).
  exists schema, c. eexists _, _.
  rewrite InsertQuery_text_reads, SelectQuery_reads.
  do 4 (split; [done|]).
  unfold required_columns. rewrite Hcols. cbn.
  repeat split; by apply (bool_decide_unpack _).
Qed.

End InsertQuery_columns.

(** ** Publishing any message and fetching it back *)

(** The replacement rune is a rune of three bytes. *)
Lemma multibyte_RuneError : multibyte (EncodeRune RuneError) RuneError.
Proof.
  split; [simpl; lia|]. split; [by repeat constructor|].
  split; [done|]. split; [done|]. intros t. reflexivity.
Qed.

Lemma Valid_from_ascii b t :
  byte b < 0x80 -> Valid_from 0 (b :: t) = Valid_from 0 t.
Proof. intros Hb. simpl. by destruct (Z.ltb_spec (byte b) 0x80); [|lia]. Qed.

(** Unquoting what [appendString] wrote always succeeds and gives valid
    UTF-8. *)
Lemma unquote_from_appendString_from_Valid src :
  exists out,
    unquote_from 0 (appendString_from 0 src) = Some out /\
    Valid_from 0 out = true.
Proof.
  assert (forall n src, (length src <= n)%nat ->
            exists out,
              unquote_from 0 (appendString_from 0 src) = Some out /\
              Valid_from 0 out = true) as Hall; [|by eapply Hall].
  clear src. induction n as [|n IH]; intros src Hn.
  { destruct src; [by exists []|simpl in Hn; lia]. }
  destruct src as [|b tl]; [by exists []|]. simpl in Hn.
  destruct (string_cases b tl) as [Hb|[[Hb Hdec]|(bs & r & rest' & Heq & Hbs)]].
  - destruct (IH tl) as (out & Hout & Hvalid); [lia|].
    exists (b :: out).
    rewrite appendString_from_ascii, unquote_from_ascii, Hout by done.
    split; [done|]. by rewrite Valid_from_ascii.
  - destruct (IH tl) as (out & Hout & Hvalid); [lia|].
    exists (EncodeRune RuneError ++ out).
    rewrite appendString_from_invalid by done.
    split; [simpl; by rewrite Hout|].
    by rewrite (Valid_from_multibyte _ _ multibyte_RuneError).
  - pose proof (multibyte_shorter _ _ _ _ _ Heq Hbs) as Hlt. rewrite Heq.
    destruct (IH rest') as (out & Hout & Hvalid); [lia|].
    exists (bs ++ out).
    split; [|by rewrite (Valid_from_multibyte _ _ Hbs)].
    destruct (Z.eq_dec r 0x2028) as [H28|H28];
      [|destruct (Z.eq_dec r 0x2029) as [H29|H29]].
    + rewrite (appendString_from_separator _ _ Hbs) by auto.
      destruct Hbs as (_ & _ & Henc & _). subst r. simpl.
      rewrite Hout. simpl. by rewrite <- Henc.
    + rewrite (appendString_from_separator _ _ Hbs) by auto.
      destruct Hbs as (_ & _ & Henc & _). subst r. simpl.
      rewrite Hout. simpl. by rewrite <- Henc.
    + rewrite (appendString_from_multibyte _ _ Hbs) by done.
      by rewrite (unquote_from_multibyte _ _ Hbs), Hout.
Qed.

Lemma scan_string_appendString_Valid s rest :
  exists body out,
    appendString s ++ rest = quote :: body ++ quote :: rest /\
    scan_string (body ++ quote :: rest) = Some (body, rest) /\
    unquote body = Some out /\ valid_string out.
Proof.
  destruct (unquote_from_appendString_from_Valid (list_ascii_of_string s))
    as (out & Hout & Hvalid).
  exists (appendString_from 0 (list_ascii_of_string s)), (string_of_list_ascii out).
  split; [|split; [|split]].
  - unfold appendString. by rewrite <- !app_assoc.
  - apply scan_string_appendString_from.
  - unfold unquote. by rewrite Hout.
  - unfold valid_string, ValidString, Valid.
    by rewrite list_ascii_of_string_of_list_ascii.
Qed.

(** The members that [json.Marshal] wrote are read back as members of
    valid UTF-8. *)
Lemma object_members_text_Valid l : forall fuel m rest,
  l <> [] -> (length l < fuel)%nat ->
  exists l',
    Forall (fun kv => valid_string kv.1 /\ valid_string kv.2) l' /\
    object_members fuel (members_text l rest) m None
    = Some (foldl store_member m l', None).
Proof.
  induction l as [|kv l IH]; intros fuel m rest Hne Hfuel; [done|].
  destruct fuel as [|fuel]; [simpl in Hfuel; lia|].
  rewrite members_text_cons. unfold member. rewrite <- !app_assoc.
  destruct (scan_string_appendString_Valid kv.1
              ([":"%char] ++ appendString kv.2 ++
               match l with
               | [] => "}"%char :: rest
               | _ :: _ => ","%char :: members_text l rest
               end)) as (key & k' & -> & Hkey & Hkey' & Hk).
  destruct (scan_string_appendString_Valid kv.2
              match l with
              | [] => "}"%char :: rest
              | _ :: _ => ","%char :: members_text l rest
              end) as (val & v' & Hval_eq & Hval & Hval' & Hv).
  rewrite object_members_step, Hkey, Hkey'. cbn [app].
  rewrite (skipSpace_other ":") by done.
  rewrite Hval_eq, (skipSpace_other quote) by done.
  rewrite (member_value_string _ v' _ _ _ Hval) by done.
  destruct l as [|kv' l].
  { exists [(k', v')]. split; [by repeat constructor|done]. }
  rewrite (skipSpace_other ",") by done.
  change (Ascii.eqb "," ",") with true. cbv iota.
  rewrite skipSpace_members_text.
  destruct (IH fuel (<[k' := v']> m) rest) as (l' & Hl' & ->);
    [done|simpl in *; lia|].
  exists ((k', v') :: l'). split; [by constructor|done].
Qed.

Lemma foldl_store_member_valid l : forall m,
  Forall (fun kv => valid_string kv.1 /\ valid_string kv.2) l ->
  valid_metadata (Some m) -> valid_metadata (Some (foldl store_member m l)).
Proof.
  induction l as [|kv l IH]; intros m Hl Hm; [done|].
  apply Forall_cons in Hl as [Hkv Hl]. simpl. apply IH; [done|].
  by apply map_Forall_insert_2.
Qed.

(** [json.Unmarshal] decodes whatever [json.Marshal] wrote, into metadata
    of valid UTF-8. *)
Lemma Unmarshal_Marshal_Valid v :
  exists data v',
    Marshal v = inl data /\ Unmarshal data (Some ∅) = inl v' /\
    valid_metadata v'.
Proof.
  destruct v as [m|];
    [|eexists _, None; split; [reflexivity|split; [by vm_compute|done]]].
  remember (sorted_members m) as l eqn:El.
  assert (Marshal (Some m) = inl ("{"%char :: members_text l [])) as Hmarshal
    by (by subst l).
  clear El. destruct l as [|kv l].
  { exists (list_ascii_of_string "{}"), (Some ∅).
    split; [done|]. split; [by vm_compute|]. apply map_Forall_empty. }
  pose proof (members_text_length (kv :: l) []) as Hlen.
  destruct (object_members_text_Valid (kv :: l)
              (length ("{"%char :: members_text (kv :: l) [])) ∅ [])
    as (l' & Hl' & Hobj); [done|simpl length in *; lia|].
  exists ("{"%char :: members_text (kv :: l) []), (Some (foldl store_member ∅ l')).
  split; [done|]. split; [|apply foldl_store_member_valid; [done|apply map_Forall_empty]].
  unfold Unmarshal, checkValid.
  rewrite (skipSpace_other "{") by done.
  destruct (members_text_head kv l []) as (tl & Htl).
  assert (scan_value (S (length ("{"%char :: members_text (kv :: l) []))) 0
            ("{"%char :: members_text (kv :: l) []) = Some []) as ->.
  { cbn [scan_value]. change (Ascii.eqb "{" "{") with true. cbv iota.
    change (maxNestingDepth <? 1)%nat with false. cbv iota.
    rewrite skipSpace_members_text, Htl.
    change (Ascii.eqb quote "}") with false. cbv iota. rewrite <- Htl.
    apply scan_members_text; [done|simpl length in *; lia]. }
  cbn [skipSpace]. change (Ascii.eqb "{" "{") with true. cbv iota.
  rewrite skipSpace_members_text, Htl.
  change (Ascii.eqb quote "}") with false. cbv iota. rewrite <- Htl.
  change (default ∅ (Some ∅)) with (∅ : gmap string string).
  by rewrite Hobj.
Qed.

(** The round trip of a message whose metadata is written as [data] and
    read back as [decoded]. *)
Lemma round_trip_value s topic offset msg data decoded :
  Marshal (Message_Metadata msg) = inl data ->
  Unmarshal data (Some ∅) = inl decoded ->
  round_trip s topic offset msg
  = Some (mkMessage (Message_UUID msg) decoded
            (bytes_of_string (string_of_bytes (Message_Payload msg)))).
Proof.
  intros Hmarshal Hunmarshal.
  unfold round_trip, DefaultSQLiteSchema.InsertQuery.
  cbn [DefaultSQLiteSchema.InsertQuery_loop]. rewrite Hmarshal.
  cbn [app stored_row Query_Args].
  unfold DefaultSQLiteSchema.UnmarshalMessage, bytes_of_string.
  cbn [Scan sql_Row_Scanner Row_Metadata Row_UUID Row_Payload NewMessage
       Message_Metadata Message_UUID Message_Payload].
  rewrite list_ascii_of_string_of_list_ascii, Hunmarshal.
  cbn [string_of_bytes]. by rewrite string_of_list_ascii_of_string.
Qed.

(** X19: every message, whatever bytes its metadata holds, can be
    published and fetched back: encoding it as [InsertQuery] does with
    [json.Marshal] and decoding the stored row as [UnmarshalMessage] does with
    [json.Unmarshal] gives no error, and a message with the same UUID, the
    same payload bytes and metadata whose keys and values are valid UTF-8. *)
Theorem round_trip_always_decodes (s : DefaultSQLiteSchema.t) (topic : string)
    (offset : Z) (msg : Message) :
  exists out,
    round_trip s topic offset msg = Some out /\
    Message_UUID out = Message_UUID msg /\
    string_of_bytes (Message_Payload out) = string_of_bytes (Message_Payload msg) /\
    valid_metadata (Message_Metadata out).
Proof.
  destruct (Unmarshal_Marshal_Valid (Message_Metadata msg))
    as (data & decoded & Hmarshal & Hunmarshal & Hvalid).
  eexists. split; [by apply (round_trip_value _ _ _ _ data decoded)|].
  cbn. by rewrite string_of_list_ascii_of_string.
Qed.

(** X20: a message that came out of a round trip goes through further
    round trips unchanged: publishing and fetching it again, for any schema,
    topic and offset, gives back exactly that message. *)
Theorem round_trip_stable (s s' : DefaultSQLiteSchema.t) (topic topic' : string)
    (offset offset' : Z) (msg out : Message) :
  round_trip s topic offset msg = Some out ->
  round_trip s' topic' offset' out = Some out.
Proof.
  destruct (Unmarshal_Marshal_Valid (Message_Metadata msg))
    as (data & decoded & Hmarshal & Hunmarshal & Hvalid).
  rewrite (round_trip_value _ _ _ _ data decoded) by done.
  intros [= <-].
  destruct (Unmarshal_Marshal decoded Hvalid) as (data' & Hmarshal' & Hunmarshal').
  rewrite (round_trip_value _ _ _ _ data' decoded) by done.
  cbn. by rewrite string_of_list_ascii_of_string.
Qed.

(** ** A metadata column that is blank *)

Lemma skipSpace_blank data :
  Forall (fun c => isSpace c = true) data -> skipSpace data = [].
Proof. induction 1 as [|c data Hc _ IH]; simpl; [done|]. by rewrite Hc. Qed.

(** X21: for every row that scans with a metadata blob that is not nil
    but holds nothing, or only white space, decoding with [json.Unmarshal]
    fails: [UnmarshalMessage] returns the zero row and a syntax error wrapped
    with [could not unmarshal metadata as JSON], where a NULL column gives a
    message with empty metadata. *)
Theorem UnmarshalMessage_blank_metadata {S : Type} `{Scanner S}
    (s : DefaultSQLiteSchema.t) (row : S) (offset : Z) (uuid payload : bytes)
    (data : list ascii) :
  Scan row = inl (offset, uuid, payload, Some data) ->
  Forall (fun c => isSpace c = true) data ->
  DefaultSQLiteSchema.UnmarshalMessage Unmarshal s row
  = (Row_zero,
     Some (errors_Wrap json_SyntaxError "could not unmarshal metadata as JSON")).
Proof.
  intros Hscan Hblank.
  assert (Unmarshal data (Some ∅) = inr json_SyntaxError) as Herr
    by (unfold Unmarshal, checkValid; by rewrite skipSpace_blank).
  unfold DefaultSQLiteSchema.UnmarshalMessage. rewrite Hscan.
  cbn [Row_Metadata Row_UUID Row_Payload NewMessage Message_Metadata].
  by rewrite Herr.
Qed.

(** ** Publishing a batch and fetching it back *)

(** What [UnmarshalMessage] makes of the row stored for a message. *)
Lemma UnmarshalMessage_stored_row s offset msg data decoded :
  Unmarshal data (Some ∅) = inl decoded ->
  exists row r,
    stored_row offset (bound_values msg data) = Some row /\
    DefaultSQLiteSchema.UnmarshalMessage Unmarshal s row = (r, None) /\
    Row_Offset r = offset /\
    Row_Msg r
    = Some (mkMessage (Message_UUID msg) decoded
              (bytes_of_string (string_of_bytes (Message_Payload msg)))).
Proof.
  intros Hunmarshal. eexists _, _. split; [reflexivity|].
  unfold DefaultSQLiteSchema.UnmarshalMessage, bytes_of_string.
  cbn [Scan sql_Row_Scanner Row_Metadata Row_UUID Row_Payload NewMessage
       Message_Metadata Message_UUID Message_Payload].
  rewrite list_ascii_of_string_of_list_ascii, Hunmarshal.
  split; [reflexivity|]. split; [reflexivity|].
  cbn [Row_Msg string_of_bytes]. by rewrite string_of_list_ascii_of_string.
Qed.

Lemma decode_stored_rows s msgs : forall offset encoded,
  Forall2 (fun msg data => Marshal (Message_Metadata msg) = inl data) msgs encoded ->
  exists outs,
    stored_rows offset (concat (zip_with bound_values msgs encoded))
      ≫= decode_rows s = Some outs /\
    Forall2 (fun msg out => forall s' topic' offset',
               round_trip s' topic' offset' msg = Some out) msgs outs.
Proof.
  induction msgs as [|msg msgs IH]; intros offset encoded Henc.
  - apply Forall2_nil_inv_l in Henc as ->. by exists [].
  - apply Forall2_cons_inv_l in Henc as (data & encoded' & Hdata & Henc & ->).
    destruct (Unmarshal_Marshal_Valid (Message_Metadata msg))
      as (data' & decoded & Hmarshal & Hunmarshal & _).
    assert (data' = data) as -> by congruence.
    destruct (UnmarshalMessage_stored_row s offset msg data decoded Hunmarshal)
      as (row & r & Hrow & Hr & _ & Hmsg).
    destruct (IH (offset + 1) encoded' Henc) as (outs & Houts & Hall).
    eexists (_ :: outs). split.
    + cbn [zip_with concat]. unfold bound_values at 1. cbn [app stored_rows].
      unfold bound_values in Hrow. rewrite Hrow. cbn [mbind option_bind].
      destruct (stored_rows (offset + 1)
                  (concat (zip_with bound_values msgs encoded'))) as [rows|];
        [|done].
      cbn [mbind option_bind decode_rows] in *. rewrite Hr, Hmsg.
      cbn [mbind option_bind]. rewrite Houts. reflexivity.
    + constructor; [|done]. intros s' topic' offset'.
      by apply (round_trip_value _ _ _ _ data decoded).
Qed.

Lemma Marshal_total msgs :
  exists encoded,
    Forall2 (fun msg data => Marshal (Message_Metadata msg) = inl data) msgs encoded.
Proof.
  induction msgs as [|msg msgs [encoded IH]]; [by exists []|].
  destruct (Unmarshal_Marshal_Valid (Message_Metadata msg))
    as (data & _ & Hmarshal & _).
  exists (data :: encoded). by constructor.
Qed.

(** X22: every batch can be published and fetched back, and comes back
    message by message: encoding a list of messages as [InsertQuery] does,
    storing the bound values three per row and decoding the rows in order as
    [UnmarshalMessage] does gives no error and as many messages, each the
    round trip of the message at its position. *)
Theorem round_trip_batch_pointwise (s : DefaultSQLiteSchema.t) (topic : string)
    (offset : Z) (msgs : list Message) :
  exists outs,
    round_trip_batch s topic offset msgs = Some outs /\
    Forall2 (fun msg out => forall s' topic' offset',
               round_trip s' topic' offset' msg = Some out) msgs outs.
Proof.
  destruct (Marshal_total msgs) as (encoded & Henc).
  destruct (decode_stored_rows s msgs offset encoded Henc) as (outs & Houts & Hall).
  exists outs. split; [|done].
  unfold round_trip_batch, DefaultSQLiteSchema.InsertQuery.
  rewrite (InsertQuery_loop_ok Marshal msgs encoded []) by done.
  exact Houts.
Qed.

(** ** A metadata column that holds the JSON text [null] *)

Lemma skipSpace_app_blank pre s :
  Forall (fun c => isSpace c = true) pre -> skipSpace (pre ++ s) = skipSpace s.
Proof. induction 1 as [|c pre Hc _ IH]; simpl; [done|]. by rewrite Hc. Qed.

Lemma Unmarshal_null pre post v :
  Forall (fun c => isSpace c = true) pre ->
  Forall (fun c => isSpace c = true) post ->
  Unmarshal (pre ++ list_ascii_of_string "null" ++ post) v = inl None.
Proof.
  intros Hpre Hpost. unfold Unmarshal, checkValid.
  rewrite skipSpace_app_blank by done.
  change (list_ascii_of_string "null" ++ post)
    with ("n"%char :: "u"%char :: "l"%char :: "l"%char :: post).
  rewrite (skipSpace_other "n") by done.
  assert (scan_value
            (S (length (pre ++ "n"%char :: "u"%char :: "l"%char :: "l"%char :: post)))
            0 ("n"%char :: "u"%char :: "l"%char :: "l"%char :: post)
          = Some post) as -> by reflexivity.
  by rewrite skipSpace_blank.
Qed.

(** X23: for every row that scans with a metadata blob that holds the
    JSON text [null], white space around it allowed, [UnmarshalMessage]
    returns no error and a message whose metadata is the nil map, where a NULL
    column gives the empty map of a new message. *)
Theorem UnmarshalMessage_json_null_metadata {S : Type} `{Scanner S}
    (s : DefaultSQLiteSchema.t) (row : S) (offset : Z) (uuid payload : bytes)
    (pre post : list ascii) :
  Forall (fun c => isSpace c = true) pre ->
  Forall (fun c => isSpace c = true) post ->
  let data := pre ++ list_ascii_of_string "null" ++ post in
  Scan row = inl (offset, uuid, payload, Some data) ->
  DefaultSQLiteSchema.UnmarshalMessage Unmarshal s row
  = (mkRow offset uuid payload (Some data)
       (Some (mkMessage (string_of_bytes uuid) None payload)),
     None).
Proof.
  intros Hpre Hpost data Hscan. subst data.
  unfold DefaultSQLiteSchema.UnmarshalMessage. rewrite Hscan.
  cbn [Row_Metadata Row_UUID Row_Payload NewMessage Message_Metadata
       Message_UUID Message_Payload].
  by rewrite Unmarshal_null.
Qed.

(** ** The further properties at concrete inputs *)

(** A row that the driver could not read. *)
Lemma UnmarshalMessage_scan_error_witness :
  DefaultSQLiteSchema.UnmarshalMessage Unmarshal (DefaultSQLiteSchema.mk None 0)
    (sql_Row_error (errors_New "sql: no rows in result set"))
  = (Row_zero,
     Some (errors_Wrap (errors_New "sql: no rows in result set")
             "could not scan message row")).
Proof.
  apply (UnmarshalMessage_scan_error Unmarshal (DefaultSQLiteSchema.mk None 0)
           (sql_Row_error (errors_New "sql: no rows in result set"))
           (errors_New "sql: no rows in result set")).
  reflexivity.
Defined.

(** A row whose metadata blob is the object with the member [k: v]. *)
Lemma UnmarshalMessage_decodes_metadata_witness :
  DefaultSQLiteSchema.UnmarshalMessage Unmarshal (DefaultSQLiteSchema.mk None 0)
    (sql_Row_columns 4 (bytes_of_string "d") (bytes_of_string "hello")
       (Some ["{"; quote; "k"; quote; ":"; quote; "v"; quote; "}"]%char))
  = (mkRow 4 (bytes_of_string "d") (bytes_of_string "hello")
       (Some ["{"; quote; "k"; quote; ":"; quote; "v"; quote; "}"]%char)
       (Some (mkMessage "d" (Some {["k" := "v"]}) (bytes_of_string "hello"))),
     None).
Proof.
  apply (UnmarshalMessage_decodes_metadata Unmarshal
           (DefaultSQLiteSchema.mk None 0)
           (sql_Row_columns 4 (bytes_of_string "d") (bytes_of_string "hello")
              (Some ["{"; quote; "k"; quote; ":"; quote; "v"; quote; "}"]%char))
           4 (bytes_of_string "d") (bytes_of_string "hello")
           ["{"; quote; "k"; quote; ":"; quote; "v"; quote; "}"]%char
           (Some {["k" := "v"]}));
    [reflexivity|vm_compute; reflexivity].
Defined.

(** A marshal function that fails on a nil map, and three messages of
    which the second and the third have one: the second is reported. *)
Lemma InsertQuery_reports_first_failure_witness :
  DefaultSQLiteSchema.InsertQuery
    (fun v => match v with
              | None => inr (errors_New "nil map")
              | Some _ => Marshal v
              end)
    (DefaultSQLiteSchema.mk None 0) "orders"
    ([mkMessage "1" (Some ∅) None] ++ mkMessage "2" None None ::
     [mkMessage "3" None None])
  = (Query_zero,
     Some (errors_Wrap (errors_New "nil map")
             ("could not marshal metadata into JSON for message " +:+ "2"))).
Proof.
  apply (InsertQuery_reports_first_failure
           (fun v => match v with
                     | None => inr (errors_New "nil map")
                     | Some _ => Marshal v
                     end)
           (DefaultSQLiteSchema.mk None 0) "orders"
           [mkMessage "1" (Some ∅) None] (mkMessage "2" None None)
           [mkMessage "3" None None] (errors_New "nil map")).
  - repeat constructor. eexists. reflexivity.
  - reflexivity.
Defined.

(** Two batches of one message each, with nil metadata. *)
Lemma InsertQuery_app_witness :
  exists q,
    DefaultSQLiteSchema.InsertQuery Marshal (DefaultSQLiteSchema.mk None 0)
      "orders" ([mkMessage "1" None None] ++ [mkMessage "2" None None])
    = (q, None) /\
    Query_Args q
    = [any_string "1"; any_string ""; any_string "null"] ++
      [any_string "2"; any_string ""; any_string "null"] /\
    exists t1 t2,
      insert_tuples <$>
        reads (read_insert "`watermill_orders`")
          (mkQuery "INSERT INTO `watermill_orders` (uuid, payload, metadata) VALUES (?,?,?)"
             [any_string "1"; any_string ""; any_string "null"]) = Some t1 /\
      insert_tuples <$>
        reads (read_insert "`watermill_orders`")
          (mkQuery "INSERT INTO `watermill_orders` (uuid, payload, metadata) VALUES (?,?,?)"
             [any_string "2"; any_string ""; any_string "null"]) = Some t2 /\
      insert_tuples <$> reads (read_insert "`watermill_orders`") q
      = Some (t1 ++ t2).
Proof.
  apply (InsertQuery_app Marshal (DefaultSQLiteSchema.mk None 0) "orders"
           [mkMessage "1" None None] [mkMessage "2" None None]
           (mkQuery "INSERT INTO `watermill_orders` (uuid, payload, metadata) VALUES (?,?,?)"
              [any_string "1"; any_string ""; any_string "null"])
           (mkQuery "INSERT INTO `watermill_orders` (uuid, payload, metadata) VALUES (?,?,?)"
              [any_string "2"; any_string ""; any_string "null"]));
    reflexivity.
Defined.

(** A batch of two messages: six placeholders and six arguments. *)
Lemma InsertQuery_placeholders_witness :
  let q := mkQuery "INSERT INTO `watermill_orders` (uuid, payload, metadata) VALUES (?,?,?),(?,?,?)"
             [any_string "1"; any_string ""; any_string "null";
              any_string "2"; any_string ""; any_string "null"] in
  placeholders (Query_Query q)
  = (placeholders "`watermill_orders`" + length (Query_Args q))%nat /\
  length (Query_Args q) = (3 * 2)%nat.
Proof.
  apply (InsertQuery_placeholders Marshal (DefaultSQLiteSchema.mk None 0)
           "orders" [mkMessage "1" None None; mkMessage "2" None None]
           (mkQuery "INSERT INTO `watermill_orders` (uuid, payload, metadata) VALUES (?,?,?),(?,?,?)"
              [any_string "1"; any_string ""; any_string "null";
               any_string "2"; any_string ""; any_string "null"])).
  reflexivity.
Defined.

(** The topics [orders] and [orders`;x]. *)
Lemma default_table_names_quote_topic_witness :
  quoted_identifier "`watermill_orders`" = Some ("watermill_orders", "") /\
  quoted_identifier "`watermill_offsets_orders`"
  = Some ("watermill_offsets_orders", "") /\
  quoted_identifier "`watermill_orders`;x`" = Some ("watermill_orders", ";x`") /\
  quoted_identifier "`watermill_offsets_orders`;x`"
  = Some ("watermill_offsets_orders", ";x`").
Proof.
  apply (default_table_names_quote_topic 0 "orders" ";" "x");
    [reflexivity|discriminate].
Defined.

(** A batch of one message. *)
Lemma InsertQuery_leaves_created_at_unset_witness :
  exists schema c ins sel,
    DefaultSQLiteSchema.SchemaInitializingQueries
      (DefaultSQLiteSchema.mk None 0) "orders" = [schema] /\
    reads (read_create "`watermill_orders`") schema = Some c /\
    reads (read_insert "`watermill_orders`")
      (mkQuery "INSERT INTO `watermill_orders` (uuid, payload, metadata) VALUES (?,?,?)"
         [any_string "1"; any_string ""; any_string "null"])
    = Some ins /\
    reads (read_select "`watermill_orders`"
             (Query_Query (NextOffsetQuery (DefaultSQLiteOffsetsAdapter.mk None)
                             "orders" "billing")))
      (DefaultSQLiteSchema.SelectQuery (DefaultSQLiteSchema.mk None 0)
         "orders" "billing" (DefaultSQLiteOffsetsAdapter.mk None))
    = Some sel /\
    column_name <$> column_definitions c
    = ["offset"; "uuid"; "created_at"; "payload"; "metadata"] /\
    required_columns c = ["uuid"; "created_at"] /\
    insert_columns ins = ["uuid"; "payload"; "metadata"] /\
    insert_columns ins ⊆ column_name <$> column_definitions c /\
    select_columns sel ⊆ column_name <$> column_definitions c /\
    "created_at" ∈ required_columns c /\
    "created_at" ∉ insert_columns ins.
Proof.
  apply (InsertQuery_leaves_created_at_unset Marshal
           (DefaultSQLiteSchema.mk None 0) (DefaultSQLiteOffsetsAdapter.mk None)
           "orders" "billing" [mkMessage "1" None None]
           (mkQuery "INSERT INTO `watermill_orders` (uuid, payload, metadata) VALUES (?,?,?)"
              [any_string "1"; any_string ""; any_string "null"])).
  reflexivity.
Defined.

(** The message whose metadata value is the byte [0xFF]: what comes back
    holds the replacement rune, and comes back again as it is. *)
Lemma round_trip_stable_witness :
  round_trip (DefaultSQLiteSchema.mk None 0) "orders" 2
    (mkMessage "1"
       (Some {["k" := String "239" (String "191" (String "189" ""))]})
       (bytes_of_string "hello"))
  = Some (mkMessage "1"
            (Some {["k" := String "239" (String "191" (String "189" ""))]})
            (bytes_of_string "hello")).
Proof.
  apply (round_trip_stable (DefaultSQLiteSchema.mk None 0)
           (DefaultSQLiteSchema.mk None 0) "orders" "orders" 1 2
           (mkMessage "1" (Some {["k" := String "255" ""]})
              (bytes_of_string "hello"))).
  vm_compute. reflexivity.
Defined.

(** A row whose metadata blob is empty and not nil. *)
Lemma UnmarshalMessage_blank_metadata_witness :
  DefaultSQLiteSchema.UnmarshalMessage Unmarshal (DefaultSQLiteSchema.mk None 0)
    (sql_Row_columns 5 (bytes_of_string "e") (bytes_of_string "hello") (Some []))
  = (Row_zero,
     Some (errors_Wrap json_SyntaxError "could not unmarshal metadata as JSON")).
Proof.
  apply (UnmarshalMessage_blank_metadata (DefaultSQLiteSchema.mk None 0)
           (sql_Row_columns 5 (bytes_of_string "e") (bytes_of_string "hello")
              (Some []))
           5 (bytes_of_string "e") (bytes_of_string "hello") []);
    [reflexivity|constructor].
Defined.

(** A row whose metadata blob is the text [null] followed by a line feed. *)
Lemma UnmarshalMessage_json_null_metadata_witness :
  DefaultSQLiteSchema.UnmarshalMessage Unmarshal (DefaultSQLiteSchema.mk None 0)
    (sql_Row_columns 6 (bytes_of_string "f") (bytes_of_string "hello")
       (Some ["n"; "u"; "l"; "l"; "010"]%char))
  = (mkRow 6 (bytes_of_string "f") (bytes_of_string "hello")
       (Some ["n"; "u"; "l"; "l"; "010"]%char)
       (Some (mkMessage "f" None (bytes_of_string "hello"))),
     None).
Proof.
  apply (UnmarshalMessage_json_null_metadata (DefaultSQLiteSchema.mk None 0)
           (sql_Row_columns 6 (bytes_of_string "f") (bytes_of_string "hello")
              (Some ["n"; "u"; "l"; "l"; "010"]%char))
           6 (bytes_of_string "f") (bytes_of_string "hello") [] ["010"%char]);
    [constructor|by repeat constructor|reflexivity].
Defined.
